(** * SpendSense consumer UI: persona routing, education modules and the
      recommendation pipeline they display

    The development embeds the data-carrying parts of the React components
    (PersonaModuleRouter, SubscriptionModule, BalanceTransferModule,
    SavingsGoalModule, the overview account card) as Rocq functions over
    explicit component state, and the persona classifier and guardrail
    validator of the pipeline from their specification.

    Numbers.  A finite JavaScript number is a rational [Qc]; arithmetic is
    exact (IEEE rounding is not modelled).  [NaN] appears only where
    [parseFloat] can produce it.  An optional or nullable field is an
    [option]; JavaScript truthiness ([x || d], [if (x)]) is written out.
    Where a whole number depends on how doubles round, namely the months
    of the savings timeline, the function is embedded over IEEE binary64
    itself (module [SavingsGoalDoubles]). *)

From Stdlib Require Import QArith Qcanon Qround.
From Stdlib Require Floats Uint63.
From stdpp Require Import base decidable option numbers list strings gmap sets sorting.

Local Open Scope Qc_scope.

(** ** JavaScript values *)

Module JS.

(** [n # d] as a number, e.g. [dec 433 100] for the literal 4.33. *)
Definition dec (n : Z) (d : positive) : Qc := Q2Qc (Qmake n d).
Definition int (n : Z) : Qc := Q2Qc (inject_Z n).

(** [x || d] for an optional number: 0, undefined and null are falsy. *)
Definition num_or (x : option Qc) (d : Qc) : Qc :=
  match x with
  | Some v => if decide (v = 0) then d else v
  | None => d
  end.

(** [x || d] for an optional string: the empty string is falsy. *)
Definition str_or (x : option string) (d : string) : string :=
  match x with
  | Some s => if decide (s = "") then d else s
  | None => d
  end.

(** [if (x)] for an optional string. *)
Definition truthy_str (x : option string) : bool :=
  match x with
  | Some s => bool_decide (s ≠ "")
  | None => false
  end.

(** [a || b] for optional objects or arrays: every object is truthy. *)
Definition obj_or {A} (a b : option A) : option A :=
  match a with
  | Some v => Some v
  | None => b
  end.

(** [s.slice(-n)]: the last [n] characters. *)
Definition slice_last (n : nat) (s : string) : string :=
  String.substring (String.length s - n) n s.

(** [Math.round]: nearest integer, halves towards +infinity. *)
Definition round (x : Qc) : Qc := int (Qfloor (x + dec 1 2)).

(** [Math.ceil]. *)
Definition ceil (x : Qc) : Qc := int (Qceiling x).

(** [Math.abs]. *)
Definition abs (x : Qc) : Qc := if decide (x < 0) then - x else x.

(** A value caught by [catch (err)]. *)
Inductive thrown :=
| ErrorObject (message : string)
| OtherValue.

(** [err instanceof Error ? err.message : fallback]. *)
Definition message_or (err : thrown) (fallback : string) : string :=
  match err with
  | ErrorObject m => m
  | OtherValue => fallback
  end.

(** The outcome of an awaited request. *)
Inductive awaited (A : Type) :=
| Resolved (v : A)
| Rejected (err : thrown).
Arguments Resolved {A} v.
Arguments Rejected {A} err.

End JS.

(** ** SubscriptionModule (src/unnamed/part_013) *)

Module SubscriptionModule.
Import JS.

(** An entry of the signal's merchant list, as received. *)
Record Merchant := {
  m_merchant : option string;
  m_amount : option Qc;
  m_monthly_equivalent : option Qc;
  m_frequency : option string
}.

(** [signals.subscriptions]. *)
Record SubscriptionSignal := {
  merchant_details : option (list Merchant);
  recurring_merchants : option (list Merchant);
  monthly_recurring : option Qc
}.

Record Signals := { subscriptions_signal : option SubscriptionSignal }.

Record Subscription := {
  merchant : string;
  amount : Qc;
  monthly_equivalent : Qc;
  frequency : string
}.

(** The component's state; [calculation], which only the savings request
    writes, is left out. *)
Record State := {
  loading : bool;
  error : option string;
  subscriptions : list Subscription;
  selectedIndices : list nat;
  totalMonthly : Qc;
  totalYearly : Qc
}.

Definition initial : State :=
  {| loading := true; error := None; subscriptions := [];
     selectedIndices := []; totalMonthly := 0; totalYearly := 0 |}.

Definition setLoading (b : bool) (s : State) : State :=
  {| loading := b; error := error s; subscriptions := subscriptions s;
     selectedIndices := selectedIndices s; totalMonthly := totalMonthly s;
     totalYearly := totalYearly s |}.

Definition setError (e : option string) (s : State) : State :=
  {| loading := loading s; error := e; subscriptions := subscriptions s;
     selectedIndices := selectedIndices s; totalMonthly := totalMonthly s;
     totalYearly := totalYearly s |}.

Definition setSubscriptions (l : list Subscription) (s : State) : State :=
  {| loading := loading s; error := error s; subscriptions := l;
     selectedIndices := selectedIndices s; totalMonthly := totalMonthly s;
     totalYearly := totalYearly s |}.

Definition setTotalMonthly (v : Qc) (s : State) : State :=
  {| loading := loading s; error := error s; subscriptions := subscriptions s;
     selectedIndices := selectedIndices s; totalMonthly := v;
     totalYearly := totalYearly s |}.

Definition setTotalYearly (v : Qc) (s : State) : State :=
  {| loading := loading s; error := error s; subscriptions := subscriptions s;
     selectedIndices := selectedIndices s; totalMonthly := totalMonthly s;
     totalYearly := v |}.

(** [setSelectedIndices(prev => f(prev))]. *)
Definition setSelectedIndices (f : list nat → list nat) (s : State) : State :=
  {| loading := loading s; error := error s; subscriptions := subscriptions s;
     selectedIndices := f (selectedIndices s); totalMonthly := totalMonthly s;
     totalYearly := totalYearly s |}.

(** [subscriptionSignal?.merchant_details ||
     subscriptionSignal?.recurring_merchants || []]: an array, even an
    empty one, is truthy. *)
Definition merchantData (sig : option SubscriptionSignal) : list Merchant :=
  default [] (obj_or (sig ≫= merchant_details) (sig ≫= recurring_merchants)).

(** The object built by the [map] callback of [loadData]. *)
Definition toSubscription (m : Merchant) : Subscription :=
  {| merchant := str_or (m_merchant m) "Unknown";
     amount := num_or (m_amount m) 0;
     monthly_equivalent :=
       num_or (m_monthly_equivalent m) (num_or (m_amount m) 0);
     frequency := str_or (m_frequency m) "monthly" |}.

Definition loadData (r : awaited Signals) (s0 : State) : State :=
  let s := setLoading true s0 in
  match r with
  | Resolved signals =>
      let subscriptionSignal := subscriptions_signal signals in
      let data := merchantData subscriptionSignal in
      let s :=
        if bool_decide (0 < length data)%nat then
          let subs := toSubscription <$> data in
          let s := setSubscriptions subs s in
          let monthly :=
            num_or (subscriptionSignal ≫= monthly_recurring) 0 in
          let s := setTotalMonthly monthly s in
          setTotalYearly (monthly * int 12) s
        else s in
      setLoading false s
  | Rejected err =>
      let s := setError (Some (message_or err "Failed to load subscriptions")) s in
      setLoading false s
  end.

(** The updater passed to [setSelectedIndices] by [toggleSubscription]. *)
Definition toggle (index : nat) (prev : list nat) : list nat :=
  if bool_decide (index ∈ prev)
  then filter (λ i, i ≠ index) prev
  else prev ++ [index].

Definition toggleSubscription (index : nat) (s : State) : State :=
  setSelectedIndices (toggle index) s.

(** The sum of the monthly amounts of the tiles shown in the grid. *)
Definition listed_total (subs : list Subscription) : Qc :=
  foldr (λ sub acc, monthly_equivalent sub + acc) 0 subs.

End SubscriptionModule.

(** ** PersonaModuleRouter (src/unnamed/part_014) *)

Module PersonaModuleRouter.
Import JS.

(** A persona is the string the API sent ([as Persona] is a cast). *)
Definition Persona := string.

(** One window's entry of [user.personas].  [match_percentages] keeps
    the entries in the order [Object.entries] yields them. *)
Record PersonaData := {
  primary_persona : option string;
  persona : option string;
  match_percentages : option (list (string * Qc))
}.

(** [user.personas] is an object keyed by window name; a key that is
    missing or holds null is absent from the map. *)
Record User := { personas : option (gmap string PersonaData) }.

(** What the debug line says, before it is rendered as text. *)
Inductive DebugInfo :=
| NoInfo
| FoundPersonas (has30d has180d : bool)
| UsingPrimaryPersona (p : string)
| UsingPersona (p : string)
| UsingHighestMatch (p : string) (pct : Qc)
| NoMatchPercentages
| NoPersonaData
| NoPersonasObject
| ErrorInfo (msg : string)
| WithFinalPersona (prev : DebugInfo) (final : Persona).

Record State := {
  st_persona : option Persona;
  st_loading : bool;
  st_error : option string;
  st_debugInfo : DebugInfo
}.

Definition initial : State :=
  {| st_persona := None; st_loading := true; st_error := None;
     st_debugInfo := NoInfo |}.

Definition setPersona (p : option Persona) (s : State) : State :=
  {| st_persona := p; st_loading := st_loading s; st_error := st_error s;
     st_debugInfo := st_debugInfo s |}.

Definition setLoading (b : bool) (s : State) : State :=
  {| st_persona := st_persona s; st_loading := b; st_error := st_error s;
     st_debugInfo := st_debugInfo s |}.

Definition setError (e : option string) (s : State) : State :=
  {| st_persona := st_persona s; st_loading := st_loading s; st_error := e;
     st_debugInfo := st_debugInfo s |}.

(** [setDebugInfo(prev => f(prev))]; a plain value is a constant [f]. *)
Definition setDebugInfo (f : DebugInfo → DebugInfo) (s : State) : State :=
  {| st_persona := st_persona s; st_loading := st_loading s;
     st_error := st_error s; st_debugInfo := f (st_debugInfo s) |}.

(** [entries.sort((a, b) => b[1] - a[1])]: a stable sort, largest
    percentage first; ties keep the order of the entries. *)
Fixpoint insert_desc (e : string * Qc) (l : list (string * Qc))
  : list (string * Qc) :=
  match l with
  | [] => [e]
  | x :: l' =>
      if decide (x.2 ≤ e.2) then e :: x :: l' else x :: insert_desc e l'
  end.

Definition sort_desc (entries : list (string * Qc)) : list (string * Qc) :=
  foldr insert_desc [] entries.

(** The chain of tests on [personaData]: the detected persona, if any,
    and the debug line it leaves (none when no branch is taken). *)
Definition fromPersonaData (d : PersonaData)
  : option Persona * option DebugInfo :=
  if truthy_str (primary_persona d) then
    (primary_persona d, UsingPrimaryPersona <$> primary_persona d)
  else if truthy_str (persona d) then
    (persona d, UsingPersona <$> persona d)
  else
    match match_percentages d with
    | Some matches =>
        match sort_desc matches with
        | (name, pct) :: _ =>
            if decide (0 < pct)
            then (Some name, Some (UsingHighestMatch name pct))
            else (None, Some NoMatchPercentages)
        | [] => (None, Some NoMatchPercentages)
        end
    | None => (None, None)
    end.

(** The part of [loadPersona] between the request and the fallback:
    [detectedPersona] together with the state after the debug updates. *)
Definition detect (user : User) (s : State) : option Persona * State :=
  match personas user with
  | Some table =>
      let persona30d := table !! "30d" in
      let persona180d := table !! "180d" in
      let s := setDebugInfo
                 (λ _, FoundPersonas (bool_decide (is_Some persona30d))
                                     (bool_decide (is_Some persona180d))) s in
      let personaData := obj_or persona30d persona180d in
      match personaData with
      | Some d =>
          let '(detected, dbg) := fromPersonaData d in
          (detected,
           match dbg with
           | Some i => setDebugInfo (λ _, i) s
           | None => s
           end)
      | None => (None, setDebugInfo (λ _, NoPersonaData) s)
      end
  | None => (None, setDebugInfo (λ _, NoPersonasObject) s)
  end.

Definition loadPersona (r : awaited User) (s0 : State) : State :=
  let s := setLoading true s0 in
  let s := setError None s in
  match r with
  | Resolved user =>
      let '(detectedPersona, s) := detect user s in
      let finalPersona := str_or detectedPersona "general_wellness" in
      let s := setPersona (Some finalPersona) s in
      let s := setDebugInfo (λ prev, WithFinalPersona prev finalPersona) s in
      setLoading false s
  | Rejected err =>
      let s := setError (Some (message_or err "Failed to load persona")) s in
      let s := setDebugInfo
                 (λ _, ErrorInfo (message_or err "Unknown error")) s in
      let s := setPersona (Some "general_wellness") s in
      setLoading false s
  end.

Inductive EducationModule :=
| BalanceTransferModule
| SubscriptionModule
| SavingsGoalModule
| BudgetBreakdownModule.

(** The [switch (persona)] at the end of the component. *)
Definition route (p : option Persona) : EducationModule :=
  match p with
  | Some name =>
      if decide (name = "high_utilization") then BalanceTransferModule
      else if decide (name = "subscription_heavy") then SubscriptionModule
      else if decide (name = "savings_builder") then SavingsGoalModule
      else if decide (name = "variable_income") then BudgetBreakdownModule
      else SavingsGoalModule
  | None => SavingsGoalModule
  end.

Inductive View :=
| LoadingView (info : DebugInfo)
| ErrorView (msg : string) (info : DebugInfo)
| ModuleView (m : EducationModule).

Definition render (s : State) : View :=
  if st_loading s then LoadingView (st_debugInfo s)
  else if truthy_str (st_error s)
       then ErrorView (default "" (st_error s)) (st_debugInfo s)
       else ModuleView (route (st_persona s)).

(** The persona the router ends up with for a user record. *)
Definition routedPersona (user : User) : option Persona :=
  st_persona (loadPersona (Resolved user) initial).

(** The windows [loadPersona] looks at. *)
Definition windows : list string := ["30d"; "180d"].

(** No window of the user record yields a persona: the record has no
    [personas] object, or every window entry it holds runs through the
    tests of [fromPersonaData] without a usable name. *)
Definition NoPersonaDetected (user : User) : Prop :=
  ∀ table w d,
    personas user = Some table → w ∈ windows → table !! w = Some d →
    truthy_str (fromPersonaData d).1 = false.

End PersonaModuleRouter.

(** ** BalanceTransferModule
       (src/consumer_ui/src/components/education/BalanceTransferModule.tsx) *)

Module BalanceTransferModule.
Import JS.

(** An entry of [overview.data.accounts.credit]. *)
Record Account := {
  account_id : string;
  mask : option string;
  balance : Qc;
  limit : option Qc
}.

(** An entry of [signals.credit_utilization.accounts]. *)
Record SignalAccount := {
  sa_account_id : string;
  sa_utilization : option Qc;
  sa_interest_charged : option Qc
}.

Record CreditSignal := {
  cs_accounts : option (list SignalAccount);
  cs_interest_charged : option Qc
}.

Record Transaction := {
  t_amount : Qc;
  t_merchant_name : option string
}.

Record CreditAccount := {
  ca_account_id : string;
  ca_account_mask : string;
  ca_balance : Qc;
  ca_credit_limit : Qc;
  ca_utilization : Qc;
  ca_interest_charged : Qc
}.

(** What the three requests of [loadData] resolve to. *)
Record Loaded := {
  credit : list Account;
  credit_utilization : option CreditSignal;
  transactions : list Transaction
}.

Record State := {
  loading : bool;
  error : option string;
  creditAccounts : list CreditAccount;
  totalBalance : Qc;
  accountCount : nat;
  monthlyInterest : Qc;
  comparisonMerchant : option string;
  comparisonCount : Qc
}.

Definition initial : State :=
  {| loading := true; error := None; creditAccounts := [];
     totalBalance := 0; accountCount := 0%nat; monthlyInterest := 0;
     comparisonMerchant := None; comparisonCount := 0 |}.

(** [creditSignal?.accounts?.find(a => a.account_id === acc.account_id)]. *)
Definition signalAccountOf (creditSignal : option CreditSignal)
    (acc : Account) : option SignalAccount :=
  (creditSignal ≫= cs_accounts) ≫=
    List.find (λ a, bool_decide (sa_account_id a = account_id acc)).

(** The object built by the [map] callback of [loadData]. *)
Definition withSignals (creditSignal : option CreditSignal) (acc : Account)
  : CreditAccount :=
  let signalAccount := signalAccountOf creditSignal acc in
  {| ca_account_id := account_id acc;
     ca_account_mask := str_or (mask acc) (slice_last 4 (account_id acc));
     ca_balance := balance acc;
     ca_credit_limit := num_or (limit acc) (num_or (limit acc) 0);
     ca_utilization :=
       num_or (signalAccount ≫= sa_utilization)
              (balance acc / num_or (limit acc) (num_or (limit acc) 1));
     ca_interest_charged := num_or (signalAccount ≫= sa_interest_charged) 0 |}.

Definition accountsWithSignals (creditSignal : option CreditSignal)
    (creditAccountsData : list Account) : list CreditAccount :=
  withSignals creditSignal <$> creditAccountsData.

Definition loadData (r : awaited Loaded) (s0 : State) : State :=
  match r with
  | Resolved d =>
      let creditAccountsData := credit d in
      let total := foldl (λ sum acc, sum + balance acc) 0 creditAccountsData in
      let creditSignal := credit_utilization d in
      let interest := num_or (creditSignal ≫= cs_interest_charged) 0 in
      let recentTxn :=
        List.find (λ t, bool_decide (t_amount t < 0)
                        && bool_decide (0 < abs (t_amount t)))
                  (transactions d) in
      {| loading := false;
         error := error s0;
         creditAccounts := accountsWithSignals creditSignal creditAccountsData;
         totalBalance := total;
         accountCount := length creditAccountsData;
         monthlyInterest := interest;
         comparisonMerchant :=
           match recentTxn with
           | Some t => Some (str_or (t_merchant_name t) "coffee")
           | None => comparisonMerchant s0
           end;
         comparisonCount :=
           match recentTxn with
           | Some t =>
               let txnAmount := abs (t_amount t) in
               if bool_decide (0 < interest) && bool_decide (0 < txnAmount)
               then round (interest / txnAmount)
               else comparisonCount s0
           | None => comparisonCount s0
           end |}
  | Rejected err =>
      {| loading := false;
         error := Some (message_or err "Failed to load data");
         creditAccounts := creditAccounts s0;
         totalBalance := totalBalance s0;
         accountCount := accountCount s0;
         monthlyInterest := monthlyInterest s0;
         comparisonMerchant := comparisonMerchant s0;
         comparisonCount := comparisonCount s0 |}
  end.

(** The [variant] of the "% used" badge on an account card. *)
Definition badgeVariant (utilization : Qc) : string :=
  if decide (dec 5 10 < utilization) then "destructive"
  else if decide (dec 3 10 < utilization) then "default"
  else "secondary".

(** The colour class of the utilization bar under it. *)
Definition barColour (utilization : Qc) : string :=
  if decide (dec 5 10 < utilization) then "bg-red-600"
  else if decide (dec 3 10 < utilization) then "bg-yellow-600"
  else "bg-green-600".

(** [signalAccount?.utilization] for an account. *)
Definition signalUtilization (creditSignal : option CreditSignal)
    (acc : Account) : option Qc :=
  signalAccountOf creditSignal acc ≫= sa_utilization.

End BalanceTransferModule.

(** ** Overview page account card (src/consumer_ui/src/pages/overview.tsx)
       and the mission page label (src/consumer_ui/src/pages/mission.tsx) *)

Module Overview.
Import JS.

Record Account := {
  mask : option string;
  balance : Qc;
  limit : option Qc;
  utilization : option Qc;
  available : option Qc
}.

(** The colour class of the utilization figure in [AccountCard]; the
    block is rendered only when [utilization !== undefined]. *)
Definition utilizationClass (account : Account) : option string :=
  match utilization account with
  | Some u =>
      Some (if decide (int 80 ≤ u) then "text-trust-error"
            else if decide (int 50 ≤ u) then "text-trust-warning"
            else "text-trust-success")
  | None => None
  end.

(** The label under the credit-utilization figure of the mission page. *)
Definition missionLabel (credit_utilization : Qc) : string :=
  if decide (credit_utilization < int 30) then "Excellent"
  else if decide (credit_utilization < int 50) then "Good"
  else "Needs attention".

End Overview.

(** ** SavingsGoalModule
       (src/consumer_ui/src/components/education/SavingsGoalModule.tsx) *)

Module SavingsGoalModule.
Import JS.

(** A number that may be [NaN]. *)
Inductive number :=
| Finite (q : Qc)
| NaN.

Definition number_map (f : Qc → Qc) (n : number) : number :=
  match n with
  | Finite q => Finite (f q)
  | NaN => NaN
  end.

(** [a >= b]: false when [b] is [NaN]. *)
Definition geb (a : Qc) (b : number) : bool :=
  match b with
  | Finite q => bool_decide (q ≤ a)
  | NaN => false
  end.

(** [months_needed] and [years_needed] are [number | null]. *)
Record SavingsGoalCalculation := {
  months_needed : option number;
  years_needed : option number;
  amount_needed : number;
  is_achievable : bool
}.

Record State := {
  step : nat;
  currentSavings : Qc;
  goalAmount : string;
  weeklySavingsSlider : Qc;
  calculation : option SavingsGoalCalculation
}.

Section WithParseFloat.

(** The built-in [parseFloat]; [NaN] when no number can be read. *)
Variable parseFloat : string → number.

(** [calculateTimelineFromWeekly] in exact arithmetic: the branches taken
    and the NaN results are those of the code; the months of the last
    branch, where the rounding of doubles decides a whole number, are
    treated in [SavingsGoalDoubles]. *)
Definition calculateTimelineFromWeekly (s : State) (weeklyAmount : Qc)
  : SavingsGoalCalculation :=
  if decide (goalAmount s = "") then
    {| months_needed := None; years_needed := None;
       amount_needed := Finite 0; is_achievable := false |}
  else
    let goal := parseFloat (goalAmount s) in
    if geb (currentSavings s) goal then
      {| months_needed := Some (Finite 0); years_needed := Some (Finite 0);
         amount_needed := Finite 0; is_achievable := true |}
    else if decide (weeklyAmount ≤ 0) then
      {| months_needed := None; years_needed := None;
         amount_needed := number_map (λ g, g - currentSavings s) goal;
         is_achievable := false |}
    else
      let monthlyFromWeekly := weeklyAmount * dec 433 100 in
      let amountNeeded := number_map (λ g, g - currentSavings s) goal in
      let monthsNeeded :=
        number_map (λ a, ceil (a / monthlyFromWeekly)) amountNeeded in
      let yearsNeeded := number_map (λ m, m / int 12) monthsNeeded in
      {| months_needed := Some monthsNeeded;
         years_needed := Some yearsNeeded;
         amount_needed := amountNeeded;
         is_achievable := true |}.

(** The effect that follows the slider in step 2. *)
Definition sliderEffect (s : State) : State :=
  if bool_decide (step s = 2%nat)
     && bool_decide (goalAmount s ≠ "")
     && bool_decide (0 < weeklySavingsSlider s)
  then {| step := step s; currentSavings := currentSavings s;
          goalAmount := goalAmount s;
          weeklySavingsSlider := weeklySavingsSlider s;
          calculation :=
            Some (calculateTimelineFromWeekly s (weeklySavingsSlider s)) |}
  else s.

End WithParseFloat.

(** [parseFloat] on a string of decimal digits; any other string is read
    as [NaN] here. *)
Definition digit_of (c : Ascii.ascii) : option Z :=
  let n := Z.of_nat (Ascii.nat_of_ascii c) in
  if bool_decide (48 ≤ n ≤ 57)%Z then Some (n - 48)%Z else None.

Fixpoint digits_value (s : string) (acc : Z) : option Z :=
  match s with
  | EmptyString => Some acc
  | String c s' =>
      match digit_of c with
      | Some d => digits_value s' (10 * acc + d)%Z
      | None => None
      end
  end.

Definition parseDigits (s : string) : number :=
  if decide (s = "") then NaN
  else match digits_value s 0 with
       | Some z => Finite (int z)
       | None => NaN
       end.

End SavingsGoalModule.


(** ** Persona classifier (spec.md, section 4.2)

    The classifier runs in the backend, whose sources are not part of the
    front-end tree; it is modelled here from its specification. *)

Module PersonaClassifier.
Import JS.

(** Modelled from the spec: the five mutually exclusive personas. *)
Inductive Persona :=
| high_utilization
| subscription_heavy
| variable_income
| savings_builder
| general_wellness.

#[global] Instance Persona_eq_dec : EqDecision Persona.
Proof. solve_decision. Defined.

(** Modelled from the spec: the signal set of one time window, with the
    fields the rule table of section 4.2 reads (the backend record type is
    missing from the sources). *)
Record SignalSet := {
  card_utilizations : list Qc;
  interest_charged : Qc;
  minimum_payment_only : bool;
  is_overdue : bool;
  recurring_merchants : nat;
  monthly_recurring : Qc;
  subscription_share : Qc;
  median_pay_gap : Qc;
  irregular_frequency : bool;
  cash_flow_buffer : Qc;
  growth_rate : Qc;
  net_inflow : Qc
}.

(** Modelled from the spec: a row of the ordered rule table, "(priority,
    predicate, persona)"; the priority is the row's position.  The
    criteria are the described conditions the predicate is built from. *)
Record Rule := {
  rule_persona : Persona;
  rule_predicate : SignalSet → bool;
  rule_criteria : list (string * (SignalSet → bool))
}.

(** Modelled from the spec: "any card utilization >= 0.50" and "all
    credit utilizations < 0.30", over the cards of the signal set. *)
Definition any_utilization_high (s : SignalSet) : bool :=
  existsb (λ u, bool_decide (dec 50 100 ≤ u)) (card_utilizations s).

Definition all_utilizations_low (s : SignalSet) : bool :=
  forallb (λ u, bool_decide (u < dec 30 100)) (card_utilizations s).

(** Modelled from the spec: rule 1, "any card utilization >= 0.50 OR
    interest_charged > 0 OR minimum_payment_only OR is_overdue". *)
Definition high_utilization_rule : Rule :=
  {| rule_persona := high_utilization;
     rule_predicate := λ s,
       any_utilization_high s || bool_decide (0 < interest_charged s)
       || minimum_payment_only s || is_overdue s;
     rule_criteria :=
       [("card utilization >= 0.50", any_utilization_high);
        ("interest_charged > 0", λ s, bool_decide (0 < interest_charged s));
        ("minimum_payment_only", minimum_payment_only);
        ("is_overdue", is_overdue)] |}.

(** Modelled from the spec: rule 2, "recurring_merchants >= 3 AND
    (monthly_recurring >= 50 OR subscription_share >= 0.10)". *)
Definition subscription_heavy_rule : Rule :=
  {| rule_persona := subscription_heavy;
     rule_predicate := λ s,
       bool_decide (3 ≤ recurring_merchants s)%nat
       && (bool_decide (int 50 ≤ monthly_recurring s)
           || bool_decide (dec 10 100 ≤ subscription_share s));
     rule_criteria :=
       [("recurring_merchants >= 3",
         λ s, bool_decide (3 ≤ recurring_merchants s)%nat);
        ("monthly_recurring >= 50",
         λ s, bool_decide (int 50 ≤ monthly_recurring s));
        ("subscription_share >= 0.10",
         λ s, bool_decide (dec 10 100 ≤ subscription_share s))] |}.

(** Modelled from the spec: rule 3, "(median_pay_gap > 45 days OR
    irregular_frequency) AND cash_flow_buffer < 1.0". *)
Definition variable_income_rule : Rule :=
  {| rule_persona := variable_income;
     rule_predicate := λ s,
       (bool_decide (int 45 < median_pay_gap s) || irregular_frequency s)
       && bool_decide (cash_flow_buffer s < int 1);
     rule_criteria :=
       [("median_pay_gap > 45", λ s, bool_decide (int 45 < median_pay_gap s));
        ("irregular_frequency", irregular_frequency);
        ("cash_flow_buffer < 1.0",
         λ s, bool_decide (cash_flow_buffer s < int 1))] |}.

(** Modelled from the spec: rule 4, "(growth_rate >= 0.02 OR net_inflow >=
    200) AND all credit utilizations < 0.30". *)
Definition savings_builder_rule : Rule :=
  {| rule_persona := savings_builder;
     rule_predicate := λ s,
       (bool_decide (dec 2 100 ≤ growth_rate s)
        || bool_decide (int 200 ≤ net_inflow s))
       && all_utilizations_low s;
     rule_criteria :=
       [("growth_rate >= 0.02", λ s, bool_decide (dec 2 100 ≤ growth_rate s));
        ("net_inflow >= 200", λ s, bool_decide (int 200 ≤ net_inflow s));
        ("all credit utilizations < 0.30", all_utilizations_low)] |}.

(** Modelled from the spec: the ordered rule table, highest priority
    first. *)
Definition rule_table : list Rule :=
  [high_utilization_rule; subscription_heavy_rule; variable_income_rule;
   savings_builder_rule].

(** Modelled from the spec: [criteria_met], the "ordered list of matched
    predicate descriptions" of the winning rule. *)
Definition criteria_met (r : Rule) (s : SignalSet) : list string :=
  fst <$> filter (λ c, c.2 s = true) (rule_criteria r).

(** Modelled from the spec: "the first rule whose predicate is true
    wins". *)
Fixpoint first_match (rules : list Rule) (s : SignalSet) : option Rule :=
  match rules with
  | [] => None
  | r :: rest => if rule_predicate r s then Some r else first_match rest s
  end.

(** Modelled from the spec: [classify(signals) -> (persona, criteria_met)]
    over an arbitrary rule table, General Wellness being the "default when
    no rule above matches". *)
Definition classify_with (rules : list Rule) (s : SignalSet)
  : Persona * list string :=
  match first_match rules s with
  | Some r => (rule_persona r, criteria_met r s)
  | None => (general_wellness, [])
  end.

(** Modelled from the spec: the classifier, on the table of section
    4.2. *)
Definition classify (s : SignalSet) : Persona * list string :=
  classify_with rule_table s.

(** Modelled from the spec: one evaluation of the table read as a run,
    "evaluated top-down", a rule being passed over only when its predicate
    is false. *)
Inductive evaluates : list Rule → SignalSet → Persona * list string → Prop :=
| eval_default s :
    evaluates [] s (general_wellness, [])
| eval_wins r rest s :
    rule_predicate r s = true →
    evaluates (r :: rest) s (rule_persona r, criteria_met r s)
| eval_next r rest s out :
    rule_predicate r s = false →
    evaluates rest s out →
    evaluates (r :: rest) s out.

(** Modelled from the spec: the High-Utilization criteria as a
    proposition, in the words of rule 1. *)
Definition HighUtilizationCriteria (s : SignalSet) : Prop :=
  (∃ u, u ∈ card_utilizations s ∧ dec 50 100 ≤ u)
  ∨ 0 < interest_charged s
  ∨ minimum_payment_only s = true
  ∨ is_overdue s = true.

End PersonaClassifier.

(** ** Guardrail validator (spec.md, sections 4.5 and 7)

    Like the classifier, the validator belongs to the backend and is
    modelled from its specification. *)

Module Guardrail.
Import PersonaClassifier.

(** Modelled from the spec: "type ∈ {education, partner_offer}". *)
Inductive RecommendationType := education | partner_offer.

(** Modelled from the spec: a ranked candidate with its rendered rationale
    and, for an offer, the eligibility predicate that is re-evaluated
    against the current signals (the selector's record is missing from
    the sources). *)
Record Candidate := {
  c_type : RecommendationType;
  c_content_id : string;
  c_title : string;
  c_rationale : string;
  c_eligibility : option (SignalSet → bool)
}.

(** Modelled from the spec: the fields of an emitted Recommendation that
    come from the candidate (identifiers and timestamps are left out). *)
Record Recommendation := {
  type : RecommendationType;
  content_id : string;
  title : string;
  rationale : string
}.

(** Modelled from the spec: "rendered text matches a prohibited phrase",
    read as the phrase occurring somewhere in the text. *)
Fixpoint contains (phrase text : string) : bool :=
  String.prefix phrase text
  || match text with
     | EmptyString => false
     | String _ rest => contains phrase rest
     end.

(** Modelled from the spec: the tone check, "scan rendered rationale
    against a prohibited-phrase list". *)
Definition tone_check (prohibited : list string) (text : string) : bool :=
  forallb (λ phrase, negb (contains phrase text)) prohibited.

(** Modelled from the spec: the eligibility re-check, "re-evaluate the
    offer's eligibility predicate against current signals". *)
Definition eligibility_check (signals : SignalSet) (c : Candidate) : bool :=
  match c_eligibility c with
  | Some predicate => predicate signals
  | None => true
  end.

(** Modelled from the spec: a candidate becomes a Recommendation only if
    both checks succeed. *)
Definition passes (prohibited : list string) (signals : SignalSet)
    (c : Candidate) : bool :=
  tone_check prohibited (c_rationale c) && eligibility_check signals c.

(** Modelled from the spec: the Recommendation emitted for a candidate,
    its rationale being the rendered text that was checked. *)
Definition to_recommendation (c : Candidate) : Recommendation :=
  {| type := c_type c; content_id := c_content_id c; title := c_title c;
     rationale := c_rationale c |}.

(** Modelled from the spec: "discard the candidate, try the next-ranked
    alternative": the first candidate that passes, with the alternatives
    ranked after it. *)
Fixpoint next_compliant (prohibited : list string) (signals : SignalSet)
    (ranked : list Candidate) : option (Candidate * list Candidate) :=
  match ranked with
  | [] => None
  | c :: rest =>
      if passes prohibited signals c then Some (c, rest)
      else next_compliant prohibited signals rest
  end.

(** Modelled from the spec: filling [slots] recommendation slots from the
    ranked candidates; "if none remain, omit that recommendation slot". *)
Fixpoint fill_slots (prohibited : list string) (signals : SignalSet)
    (slots : nat) (ranked : list Candidate) : list Recommendation :=
  match slots with
  | O => []
  | S slots' =>
      match next_compliant prohibited signals ranked with
      | Some (c, rest) =>
          to_recommendation c :: fill_slots prohibited signals slots' rest
      | None => []
      end
  end.

(** Modelled from the spec: a rationale "contains" a phrase when the
    phrase is a part of it. *)
Definition occurs_in (phrase text : string) : Prop :=
  ∃ before after, text = before +:+ phrase +:+ after.

End Guardrail.


(** ** SubscriptionModule: the quick-select buttons and the tile helpers
       (src/unnamed/part_013) *)

Module SubscriptionSelection.
Import JS SubscriptionModule.

(** "Select All": [setSelectedIndices(subscriptions.map((_, i) => i))]. *)
Definition selectAll (s : State) : State :=
  setSelectedIndices (λ _, imap (λ i _, i) (subscriptions s)) s.

(** "Deselect All": [setSelectedIndices([])]. *)
Definition deselectAll (s : State) : State :=
  setSelectedIndices (λ _, []) s.

(** [selectedIndices.includes(index)], computed for every tile. *)
Definition isSelected (index : nat) (s : State) : bool :=
  bool_decide (index ∈ selectedIndices s).

(** The badge of a tile: [sub.frequency === 'weekly' ? 'Weekly' : 'Monthly']. *)
Definition frequencyBadge (sub : Subscription) : string :=
  if decide (frequency sub = "weekly") then "Weekly" else "Monthly".

End SubscriptionSelection.

Module SubscriptionLinks.

(** [text.includes(key)]. *)
Fixpoint includes (text key : string) : bool :=
  String.prefix key text
  || match text with
     | EmptyString => false
     | String _ rest => includes rest key
     end.

(** [logoMap], in the order [Object.entries] walks it. *)
Definition logoMap : list (string * string) :=
  [("netflix", "https://logo.clearbit.com/netflix.com");
   ("spotify", "https://logo.clearbit.com/spotify.com");
   ("hulu", "https://logo.clearbit.com/hulu.com");
   ("disney+", "https://logo.clearbit.com/disneyplus.com");
   ("disney plus", "https://logo.clearbit.com/disneyplus.com");
   ("apple", "https://logo.clearbit.com/apple.com");
   ("icloud", "https://logo.clearbit.com/icloud.com");
   ("amazon", "https://logo.clearbit.com/amazon.com");
   ("prime", "https://logo.clearbit.com/amazon.com");
   ("youtube", "https://logo.clearbit.com/youtube.com");
   ("gym", "https://logo.clearbit.com/planetfitness.com");
   ("planet fitness", "https://logo.clearbit.com/planetfitness.com");
   ("adobe", "https://logo.clearbit.com/adobe.com");
   ("microsoft", "https://logo.clearbit.com/microsoft.com");
   ("office", "https://logo.clearbit.com/microsoft.com");
   ("dropbox", "https://logo.clearbit.com/dropbox.com");
   ("nyt", "https://logo.clearbit.com/nytimes.com");
   ("new york times", "https://logo.clearbit.com/nytimes.com");
   ("peloton", "https://logo.clearbit.com/onepeloton.com");
   ("hellofresh", "https://logo.clearbit.com/hellofresh.com")].

(** [cancellationLinks], in the same way. *)
Definition cancellationLinks : list (string * string) :=
  [("netflix", "https://help.netflix.com/en/node/407");
   ("spotify", "https://support.spotify.com/us/article/close-account/");
   ("hulu", "https://help.hulu.com/s/article/cancel-subscription");
   ("disney+", "https://help.disneyplus.com/csp?id=csp_article_content&sys_kb_id=f17a6c38db3048d03c0cf158bf9619e2");
   ("disney plus", "https://help.disneyplus.com/csp?id=csp_article_content&sys_kb_id=f17a6c38db3048d03c0cf158bf9619e2");
   ("amazon", "https://www.amazon.com/mc/yourmembershipsandsubscriptions");
   ("prime", "https://www.amazon.com/mc/yourmembershipsandsubscriptions");
   ("youtube", "https://www.youtube.com/paid_memberships");
   ("adobe", "https://helpx.adobe.com/manage-account/using/cancel-subscription.html")].

(** The loop [for (const [key, value] of Object.entries(table))
    if (cleanMerchant.includes(key)) return value]. *)
Fixpoint firstIncluded (cleanMerchant : string) (table : list (string * string))
  : option string :=
  match table with
  | [] => None
  | (key, value) :: rest =>
      if includes cleanMerchant key then Some value
      else firstIncluded cleanMerchant rest
  end.

Section WithStringBuiltins.

(** The built-ins [String.prototype.toLowerCase], [String.prototype.trim]
    and [encodeURIComponent]. *)
Variables toLowerCase trim encodeURIComponent : string → string.

Definition cleanMerchant (merchant : string) : string :=
  trim (toLowerCase merchant).

Definition getMerchantLogo (merchant : string) : string :=
  match firstIncluded (cleanMerchant merchant) logoMap with
  | Some logo => logo
  | None =>
      "https://ui-avatars.com/api/?name=" +:+ encodeURIComponent merchant
      +:+ "&background=random&size=96&font-size=0.4&bold=true"
  end.

Definition getCancellationLink (merchant : string) : option string :=
  firstIncluded (cleanMerchant merchant) cancellationLinks.

End WithStringBuiltins.

(** [toLowerCase] and [trim] on ASCII text (letters A-Z; blanks, tabs and
    line ends), to run the helpers on examples. *)
Definition lowerAscii (c : Ascii.ascii) : Ascii.ascii :=
  let n := Ascii.nat_of_ascii c in
  if bool_decide (65 ≤ n ≤ 90)%nat then Ascii.ascii_of_nat (n + 32) else c.

Fixpoint toLowerCaseAscii (s : string) : string :=
  match s with
  | EmptyString => EmptyString
  | String c rest => String (lowerAscii c) (toLowerCaseAscii rest)
  end.

Definition isBlank (c : Ascii.ascii) : bool :=
  let n := Ascii.nat_of_ascii c in
  bool_decide (n = 32 ∨ 9 ≤ n ≤ 13)%nat.

Fixpoint trimStartAscii (s : string) : string :=
  match s with
  | EmptyString => EmptyString
  | String c rest => if isBlank c then trimStartAscii rest else s
  end.

Fixpoint trimEndAscii (s : string) : string :=
  match s with
  | EmptyString => EmptyString
  | String c rest =>
      match trimEndAscii rest with
      | EmptyString => if isBlank c then EmptyString else String c EmptyString
      | kept => String c kept
      end
  end.

Definition trimAscii (s : string) : string := trimEndAscii (trimStartAscii s).

End SubscriptionLinks.

(** ** MissionCard (src/unnamed/part_013) *)

Module MissionCard.
Import JS.

(** A number that may be infinite or [NaN]: the card divides by a
    [targetValue] that can be 0.  (Zero is not signed here.) *)
Inductive xnumber :=
| Fin (q : Qc)
| PosInf
| NegInf
| NotANumber.

(** [a / b]. *)
Definition div (a b : Qc) : xnumber :=
  if decide (b = 0) then
    if decide (a = 0) then NotANumber
    else if decide (0 < a) then PosInf else NegInf
  else Fin (a / b).

(** [x * 100]. *)
Definition times100 (x : xnumber) : xnumber :=
  match x with
  | Fin q => Fin (q * int 100)
  | other => other
  end.

(** [Math.min(100, x)]. *)
Definition min100 (x : xnumber) : xnumber :=
  match x with
  | Fin q => Fin (if decide (q < int 100) then q else int 100)
  | PosInf => Fin (int 100)
  | NegInf => NegInf
  | NotANumber => NotANumber
  end.

(** [Math.max(0, x)]. *)
Definition max0 (x : xnumber) : xnumber :=
  match x with
  | Fin q => Fin (if decide (0 < q) then q else 0)
  | PosInf => PosInf
  | NegInf => Fin 0
  | NotANumber => NotANumber
  end.

(** The [unit] prop with its default: [unit = "%"] applies when the prop
    is undefined. *)
Definition unitOf (unit : option string) : string := default "%" unit.

Definition progressPercentage (unit : option string)
    (currentValue targetValue : Qc) : xnumber :=
  if decide (unitOf unit = "%") then Fin currentValue
  else min100 (times100 (div currentValue targetValue)).

(** The width of the bar, in percent:
    [Math.min(100, Math.max(0, progressPercentage))]. *)
Definition barWidth (unit : option string) (currentValue targetValue : Qc)
  : xnumber :=
  min100 (max0 (progressPercentage unit currentValue targetValue)).

(** The "months" line: shown when [estimatedMonths !== undefined], with
    the singular for exactly 1. *)
Definition monthsWord (estimatedMonths : Qc) : string :=
  if decide (estimatedMonths = int 1) then "month" else "months".

(** A width is in range when it is a number between 0 and 100. *)
Definition width_in_range (x : xnumber) : Prop :=
  match x with
  | Fin w => 0 ≤ w ∧ w ≤ int 100
  | _ => False
  end.

End MissionCard.

(** ** SavingsGoalModule: the high-yield comparison and the slider start
       (src/consumer_ui/src/components/education/SavingsGoalModule.tsx) *)

Module SavingsGoalHYSA.
Import JS SavingsGoalModule.

(** Arithmetic and comparison on numbers that may be [NaN]. *)
Definition number_lift2 (f : Qc → Qc → Qc) (a b : number) : number :=
  match a, b with
  | Finite x, Finite y => Finite (f x y)
  | _, _ => NaN
  end.

Definition nadd : number → number → number := number_lift2 Qcplus.
Definition nsub : number → number → number := number_lift2 Qcminus.
Definition nmul : number → number → number := number_lift2 Qcmult.

(** [a < b]: false when either side is [NaN]. *)
Definition nlt (a b : number) : bool :=
  match a, b with
  | Finite x, Finite y => bool_decide (x < y)
  | _, _ => false
  end.

(** The two state variables of the component that
    [getEffectiveMonthlyRate] reads besides those of [State]. *)
Record Rates := {
  customMonthlyRate : string;
  monthlySavingsRate : Qc
}.

Definition HYSA_APY : Qc := dec 45 10.

(** How often the body of [for (let i = 0; i < months; i++)] runs. *)
Definition iterations (months : number) : nat :=
  match months with
  | Finite m => Z.to_nat (Qceiling m)
  | NaN => 0%nat
  end.

Definition calculateWithCompoundInterest
    (principal monthlyDeposit apr months : number) : number :=
  let monthlyRate := number_map (λ a, a / int 12 / int 100) apr in
  Nat.iter (iterations months)
    (λ balance, nadd (nmul balance (nadd (Finite 1) monthlyRate)) monthlyDeposit)
    principal.

Record HYSAComparison := {
  regularSavings : number;
  hysaSavings : number;
  interestEarned : number;
  monthsSaved : number
}.

(** The loop [while (balance < goal && months < 360)] of
    [getHYSAComparison]; [fuel] is what is left of the 360 months. *)
Fixpoint hysaLoop (fuel : nat) (goal effectiveMonthlyRate balance : number)
    (months : nat) : number * nat :=
  match fuel with
  | O => (balance, months)
  | S fuel' =>
      if nlt balance goal then
        hysaLoop fuel' goal effectiveMonthlyRate
          (nadd (nmul balance (Finite (1 + HYSA_APY / int 12 / int 100)))
                effectiveMonthlyRate)
          (S months)
      else (balance, months)
  end.

(** The whole months the loop takes to reach the goal, at most 360. *)
Definition hysaMonths (goal effectiveMonthlyRate : number) (currentSavings : Qc)
  : nat :=
  (hysaLoop 360 goal effectiveMonthlyRate (Finite currentSavings) 0).2.

Section WithParseFloat.

Variable parseFloat : string → number.

Definition getEffectiveMonthlyRate (s : State) (r : Rates) : number :=
  if bool_decide (0 < weeklySavingsSlider s) && bool_decide (step s = 2%nat)
  then Finite (weeklySavingsSlider s * dec 433 100)
  else if decide (customMonthlyRate r = "") then Finite (monthlySavingsRate r)
       else parseFloat (customMonthlyRate r).

(** [null] when there is no calculation or its [months_needed] is falsy
    (null, 0 or [NaN]). *)
Definition getHYSAComparison (s : State) (r : Rates) : option HYSAComparison :=
  match calculation s ≫= months_needed with
  | Some (Finite months_needed) =>
      if decide (months_needed = 0) then None
      else
        let goal := parseFloat (goalAmount s) in
        let effectiveMonthlyRate := getEffectiveMonthlyRate s r in
        let regularSavings :=
          nadd (Finite (currentSavings s))
               (nmul effectiveMonthlyRate (Finite months_needed)) in
        let hysaSavings :=
          calculateWithCompoundInterest (Finite (currentSavings s))
            effectiveMonthlyRate (Finite HYSA_APY) (Finite months_needed) in
        let interestEarned := nsub hysaSavings regularSavings in
        let monthsSaved :=
          if nlt (Finite 0) effectiveMonthlyRate then
            months_needed
            - int (Z.of_nat (hysaMonths goal effectiveMonthlyRate (currentSavings s)))
          else 0 in
        Some {| regularSavings := regularSavings;
                hysaSavings := hysaSavings;
                interestEarned := interestEarned;
                monthsSaved :=
                  Finite (if decide (0 < monthsSaved) then monthsSaved else 0) |}
  | _ => None
  end.

End WithParseFloat.

End SavingsGoalHYSA.


(** ** BalanceTransferModule: what the account cards add up to *)

Module BalanceTransferCards.
Import BalanceTransferModule.

(** The sum of the balances on the cards shown in step 0. *)
Definition cards_total (cards : list CreditAccount) : Qc :=
  foldr (λ card rest, ca_balance card + rest) 0 cards.

End BalanceTransferCards.

(** ** SavingsGoalModule: the timeline in double precision
       (src/consumer_ui/src/components/education/SavingsGoalModule.tsx) *)

Module SavingsGoalDoubles.
Import Floats.

(** A whole number below 2^63 as a double ([PrimFloat.of_uint63] rounds
    to nearest; it is exact up to 2^53). *)
Definition of_Z (z : Z) : float := PrimFloat.of_uint63 (Uint63.of_Z z).

(** [Math.ceil].  A finite double is (-1)^s * m * 2^e: with e >= 0 it is
    whole already; otherwise the whole part of m * 2^e is taken, plus one
    for a positive number with a fraction.  Zeros, infinities and NaN are
    returned as they are, and a negative number above -1 gives -0. *)
Definition ceil (x : float) : float :=
  match Prim2SF x with
  | S754_finite negative m e =>
      if (0 <=? e)%Z then x
      else
        let whole := Z.shiftr (Z.pos m) (- e) in
        let integral := (Z.shiftl whole (- e) =? Z.pos m)%Z in
        if negative then PrimFloat.opp (of_Z whole)
        else of_Z (if integral then whole else whole + 1)
  | _ => x
  end.

(** The literal 4.33: the double nearest to it. *)
Definition weeksPerMonth : float := 0x1.151eb851eb852p+2%float.

(** [months_needed] and [years_needed] are [number | null]. *)
Record SavingsGoalCalculation := {
  months_needed : option float;
  years_needed : option float;
  amount_needed : float;
  is_achievable : bool
}.

(** The state variables the calculation reads. *)
Record State := {
  currentSavings : float;
  goalAmount : string
}.

Section WithParseFloat.

(** The built-in [parseFloat]. *)
Variable parseFloat : string → float.

Definition calculateTimelineFromWeekly (s : State) (weeklyAmount : float)
  : SavingsGoalCalculation :=
  if decide (goalAmount s = "") then
    {| months_needed := None; years_needed := None;
       amount_needed := 0%float; is_achievable := false |}
  else
    let goal := parseFloat (goalAmount s) in
    if (goal <=? currentSavings s)%float then
      {| months_needed := Some 0%float; years_needed := Some 0%float;
         amount_needed := 0%float; is_achievable := true |}
    else if (weeklyAmount <=? 0)%float then
      {| months_needed := None; years_needed := None;
         amount_needed := (goal - currentSavings s)%float;
         is_achievable := false |}
    else
      let monthlyFromWeekly := (weeklyAmount * weeksPerMonth)%float in
      let amountNeeded := (goal - currentSavings s)%float in
      let monthsNeeded := ceil (amountNeeded / monthlyFromWeekly)%float in
      let yearsNeeded := (monthsNeeded / 12)%float in
      {| months_needed := Some monthsNeeded;
         years_needed := Some yearsNeeded;
         amount_needed := amountNeeded;
         is_achievable := true |}.

End WithParseFloat.

(** [parseFloat] on a string of decimal digits whose value is below 2^53;
    any other string is read as NaN here. *)
Definition parseDigits (s : string) : float :=
  if decide (s = "") then nan
  else match SavingsGoalModule.digits_value s 0 with
       | Some z => if (z <? 2 ^ 53)%Z then of_Z z else nan
       | None => nan
       end.

End SavingsGoalDoubles.

(** * Properties *)

(** ** Selecting subscriptions *)

Section ToggleSubscription.
Import SubscriptionModule.

Implicit Types (prev : list nat) (i j index : nat) (s : State).

Lemma toggle_absent index prev :
  index ∉ prev → toggle index prev = prev ++ [index].
Proof. intros H. unfold toggle. by rewrite bool_decide_eq_false_2. Qed.

Lemma toggle_present index prev :
  index ∈ prev → toggle index prev = filter (λ i, i ≠ index) prev.
Proof. intros H. unfold toggle. by rewrite bool_decide_eq_true_2. Qed.

Lemma filter_other_absent index prev :
  index ∉ filter (λ i, i ≠ index) prev.
Proof. rewrite list_elem_of_filter. tauto. Qed.

Lemma filter_other_id index prev :
  index ∉ prev → filter (λ i, i ≠ index) prev = prev.
Proof.
  induction prev as [|x prev IH]; [done|].
  rewrite not_elem_of_cons. intros [Hne Hnot].
  rewrite filter_cons_True by congruence. by rewrite IH.
Qed.

(** Membership after one toggle: the toggled index flips, the others
    stay. *)
Lemma elem_of_toggle index j prev :
  j ∈ toggle index prev ↔
  (j ≠ index ∧ j ∈ prev) ∨ (j = index ∧ index ∉ prev).
Proof.
  destruct (decide (index ∈ prev)) as [Hin|Hnot].
  - rewrite toggle_present, list_elem_of_filter by done. tauto.
  - rewrite toggle_absent, elem_of_app, list_elem_of_singleton by done.
    destruct (decide (j = index)) as [->|Hne]; tauto.
Qed.

(** Toggling an unselected index and toggling it again gives the very
    same list back. *)
Lemma toggle_twice_absent index prev :
  index ∉ prev → toggle index (toggle index prev) = prev.
Proof.
  intros Hnot. rewrite (toggle_absent _ _ Hnot).
  rewrite toggle_present by (rewrite elem_of_app, list_elem_of_singleton; auto).
  rewrite filter_app, filter_other_id by done.
  rewrite filter_cons_False by (intros H; by apply H).
  by rewrite filter_nil, app_nil_r.
Qed.

Lemma toggle_twice_present index prev :
  index ∈ prev →
  toggle index (toggle index prev) = filter (λ i, i ≠ index) prev ++ [index].
Proof.
  intros Hin. rewrite (toggle_present _ _ Hin).
  apply toggle_absent, filter_other_absent.
Qed.

Lemma toggle_NoDup index prev : NoDup prev → NoDup (toggle index prev).
Proof.
  intros Hnd. destruct (decide (index ∈ prev)) as [Hin|Hnot].
  - rewrite toggle_present by done. by apply NoDup_filter.
  - rewrite toggle_absent by done. apply NoDup_app. split_and!; [done| |].
    + intros x Hx. rewrite list_elem_of_singleton. by intros ->.
    + apply NoDup_singleton.
Qed.

(** The toggled index never occurs twice afterwards, and no other index
    changes its number of occurrences. *)
Lemma toggle_count index j prev :
  count_occ Nat.eq_dec (toggle index prev) j
  = if decide (j = index)
    then (if decide (index ∈ prev) then 0 else 1)%nat
    else count_occ Nat.eq_dec prev j.
Proof.
  assert (Hf : ∀ l, count_occ Nat.eq_dec (filter (λ i, i ≠ index) l) j
                    = if decide (j = index) then 0%nat
                      else count_occ Nat.eq_dec l j).
  { induction l as [|x l IH]; [by case_decide|].
    destruct (decide (x = index)) as [->|Hx].
    - rewrite filter_cons_False by (intros H; by apply H).
      rewrite IH. case_decide as Hj; [done|].
      simpl. destruct (Nat.eq_dec index j); congruence.
    - rewrite filter_cons_True by done. simpl. rewrite IH.
      destruct (Nat.eq_dec x j) as [->|Hxj]; case_decide; congruence. }
  unfold toggle. case_bool_decide as Hin.
  - rewrite Hf. by repeat case_decide.
  - rewrite count_occ_app. simpl.
    destruct (Nat.eq_dec index j) as [<-|Hne].
    + rewrite decide_True by done. rewrite decide_False by done.
      rewrite list_elem_of_In in Hin.
      apply (count_occ_not_In Nat.eq_dec) in Hin. lia.
    + rewrite decide_False by congruence. lia.
Qed.

(** C10: toggling the same subscription twice leaves a selection with
    exactly the indices of the original one, whatever the selection; and a
    toggle never introduces a duplicate: no index occurs more often than
    before, or than once, and a duplicate-free selection stays
    duplicate-free. *)
Theorem toggleSubscription_twice_same_indices s index :
  (list_to_set (selectedIndices (toggleSubscription index (toggleSubscription index s)))
   =@{gset nat} list_to_set (selectedIndices s))
  ∧ (∀ j, (count_occ Nat.eq_dec (selectedIndices (toggleSubscription index s)) j
           ≤ Nat.max 1 (count_occ Nat.eq_dec (selectedIndices s) j))%nat)
  ∧ (NoDup (selectedIndices s) →
     NoDup (selectedIndices (toggleSubscription index s))).
Proof.
  simpl. split_and!.
  - apply set_eq. intros j. rewrite !elem_of_list_to_set, !elem_of_toggle.
    destruct (decide (j = index)) as [->|Hne];
      destruct (decide (index ∈ selectedIndices s)); tauto.
  - intros j. rewrite toggle_count. repeat case_decide; lia.
  - apply toggle_NoDup.
Qed.

(** A selection of the tiles 0 and 2, toggled at 2 and at 1. *)
Lemma toggleSubscription_twice_witness :
  let s := setSelectedIndices (λ _, [0; 2]%nat) initial in
  selectedIndices (toggleSubscription 2 s) = [0%nat]
  ∧ selectedIndices (toggleSubscription 1 s) = [0; 2; 1]%nat
  ∧ NoDup (selectedIndices (toggleSubscription 1 s)).
Proof.
  split_and!; [reflexivity | reflexivity |].
  apply (toggleSubscription_twice_same_indices
           (setSelectedIndices (λ _, [0; 2]%nat) initial) 1).
  simpl. by apply (bool_decide_unpack _).
Defined.

End ToggleSubscription.

(** ** Persona routing *)

Section PersonaRouting.
Import JS PersonaModuleRouter.

Implicit Types (s : State) (user : User) (d : PersonaData)
  (table : gmap string PersonaData).

Lemma str_or_falsy (x : option string) (dflt : string) :
  truthy_str x = false → str_or x dflt = dflt.
Proof.
  destruct x as [v|]; simpl; [|done].
  intros H. apply bool_decide_eq_false in H.
  case_decide; [done|]. by destruct H.
Qed.

Lemma str_or_truthy (v dflt : string) :
  v ≠ "" → str_or (Some v) dflt = v.
Proof. intros H. simpl. by case_decide. Qed.

Lemma str_or_nonempty (x : option string) (dflt : string) :
  dflt ≠ "" → str_or x dflt ≠ "".
Proof. intros H. destruct x as [v|]; simpl; [by case_decide|done]. Qed.

(** The debug updates of [detect] touch nothing but the debug line. *)
Lemma detect_frame user s :
  st_persona (detect user s).2 = st_persona s
  ∧ st_loading (detect user s).2 = st_loading s
  ∧ st_error (detect user s).2 = st_error s.
Proof.
  unfold detect. destruct (personas user) as [table|]; [|done].
  destruct (obj_or _ _) as [d|]; [|done].
  destruct (fromPersonaData d) as [detected [i|]]; done.
Qed.

(** What [detect] finds does not depend on the component state, and
    neither does the debug line it leaves. *)
Lemma detect_stateless user s1 s2 :
  (detect user s1).1 = (detect user s2).1
  ∧ st_debugInfo (detect user s1).2 = st_debugInfo (detect user s2).2.
Proof.
  unfold detect. destruct (personas user) as [table|]; [|done].
  destruct (obj_or _ _) as [d|]; [|done].
  destruct (fromPersonaData d) as [detected [i|]]; done.
Qed.

(** The persona [loadPersona] stores, in one equation per outcome. *)
Lemma loadPersona_resolved user s :
  st_persona (loadPersona (Resolved user) s)
  = Some (str_or (detect user s).1 "general_wellness").
Proof.
  unfold loadPersona.
  pose proof (detect_stateless user (setError None (setLoading true s)) s)
    as [Hd _].
  destruct (detect user (setError None (setLoading true s))) as [p s'].
  simpl in *. by rewrite Hd.
Qed.

Lemma loadPersona_rejected err s :
  st_persona (loadPersona (Rejected err) s) = Some "general_wellness".
Proof. done. Qed.

(** With a 30d entry the detection reads that entry alone. *)
Lemma detect_30d table d30 s :
  table !! "30d" = Some d30 →
  (detect {| personas := Some table |} s).1 = (fromPersonaData d30).1.
Proof.
  intros H30. unfold detect. simpl. rewrite H30. simpl.
  by destruct (fromPersonaData d30) as [detected [i|]].
Qed.

(** Without one it reads the 180d entry. *)
Lemma detect_180d table d180 s :
  table !! "30d" = None → table !! "180d" = Some d180 →
  (detect {| personas := Some table |} s).1 = (fromPersonaData d180).1.
Proof.
  intros H30 H180. unfold detect. simpl. rewrite H30, H180. simpl.
  by destruct (fromPersonaData d180) as [detected [i|]].
Qed.

Lemma detect_no_window table s :
  table !! "30d" = None → table !! "180d" = None →
  (detect {| personas := Some table |} s).1 = None.
Proof. intros H30 H180. unfold detect. simpl. by rewrite H30, H180. Qed.

Lemma detect_undetected user s :
  NoPersonaDetected user → truthy_str (detect user s).1 = false.
Proof.
  intros Hno. destruct user as [[table|]]; [|done].
  destruct (table !! "30d") as [d30|] eqn:H30.
  - rewrite (detect_30d _ _ _ H30). apply (Hno table "30d"); [done| |done].
    unfold windows. set_solver.
  - destruct (table !! "180d") as [d180|] eqn:H180.
    + rewrite (detect_180d _ _ _ H30 H180).
      apply (Hno table "180d"); [done| |done]. unfold windows. set_solver.
    + by rewrite detect_no_window.
Qed.

(** A run of [loadPersona] overwrites every field it reads: the state it
    leaves is a function of the awaited user record alone. *)
Lemma loadPersona_stateless (r : awaited User) s1 s2 :
  loadPersona r s1 = loadPersona r s2.
Proof.
  destruct r as [user|err]; [|done]. unfold loadPersona.
  pose proof (detect_stateless user (setError None (setLoading true s1))
                (setError None (setLoading true s2))) as [Hp Hd].
  pose proof (detect_frame user (setError None (setLoading true s1)))
    as (_ & _ & He1).
  pose proof (detect_frame user (setError None (setLoading true s2)))
    as (_ & _ & He2).
  destruct (detect user (setError None (setLoading true s1))) as [p1 t1].
  destruct (detect user (setError None (setLoading true s2))) as [p2 t2].
  simpl in *. subst p2. unfold setLoading, setDebugInfo, setPersona. simpl.
  by rewrite Hd, He1, He2.
Qed.

(** C5: the router never ends up without a persona, and it ends up with
    general_wellness both when the request for the user record fails and
    when no window of the record yields a persona; the module shown for
    it is the default one. *)
Theorem loadPersona_falls_back_to_general_wellness (r : awaited User) s :
  (∃ p, st_persona (loadPersona r s) = Some p ∧ p ≠ "")
  ∧ ((∀ user, r = Resolved user → NoPersonaDetected user) →
     st_persona (loadPersona r s) = Some "general_wellness"
     ∧ route (st_persona (loadPersona r s)) = SavingsGoalModule).
Proof.
  split.
  - destruct r as [user|err].
    + rewrite loadPersona_resolved. eexists. split; [done|].
      by apply str_or_nonempty.
    + by exists "general_wellness".
  - intros Hno.
    assert (st_persona (loadPersona r s) = Some "general_wellness") as ->.
    { destruct r as [user|err]; [|done].
      rewrite loadPersona_resolved. f_equal.
      apply str_or_falsy, detect_undetected. by apply Hno. }
    done.
Qed.

(** A failed request; a record without [personas]; a record whose only
    window entry names nothing. *)
Lemma loadPersona_falls_back_witness :
  st_persona (loadPersona (Rejected (ErrorObject "API error: Not Found")) initial)
  = Some "general_wellness"
  ∧ st_persona (loadPersona (Resolved {| personas := None |}) initial)
    = Some "general_wellness"
  ∧ st_persona
      (loadPersona
         (Resolved {| personas := Some {[ "180d" :=
              {| primary_persona := Some ""; persona := None;
                 match_percentages := Some [("savings_builder", 0)] |} ]} |})
         initial)
    = Some "general_wellness".
Proof.
  split_and!.
  - apply (loadPersona_falls_back_to_general_wellness
             (Rejected (ErrorObject "API error: Not Found")) initial).
    intros user H. discriminate H.
  - apply (loadPersona_falls_back_to_general_wellness
             (Resolved {| personas := None |}) initial).
    intros user [= <-] table w d H. discriminate H.
  - apply (loadPersona_falls_back_to_general_wellness
             (Resolved {| personas := Some {[ "180d" :=
                {| primary_persona := Some ""; persona := None;
                   match_percentages := Some [("savings_builder", 0)] |} ]} |})
             initial).
    intros user [= <-] table w d [= <-] Hw Hd.
    apply lookup_singleton_Some in Hd as [_ <-]. reflexivity.
Defined.

(** C8: when the user record holds a 30d and a 180d entry, the routed
    persona is the one read from the 30d entry (general_wellness when that
    entry names none), and it stays the same whatever the 180d entry is
    replaced by, or when it is removed; the 180d entry is read only when
    there is no 30d entry. *)
Theorem loadPersona_prefers_30d table d30 d180 s :
  table !! "30d" = Some d30 →
  table !! "180d" = Some d180 →
  st_persona (loadPersona (Resolved {| personas := Some table |}) s)
  = Some (str_or (fromPersonaData d30).1 "general_wellness")
  ∧ (∀ other s',
       st_persona (loadPersona
                     (Resolved {| personas := Some (<["180d" := other]> table) |}) s')
       = st_persona (loadPersona (Resolved {| personas := Some table |}) s))
  ∧ (∀ s',
       st_persona (loadPersona
                     (Resolved {| personas := Some (delete "180d" table) |}) s')
       = st_persona (loadPersona (Resolved {| personas := Some table |}) s))
  ∧ st_persona (loadPersona
                  (Resolved {| personas := Some (delete "30d" table) |}) s)
    = Some (str_or (fromPersonaData d180).1 "general_wellness").
Proof.
  intros H30 H180.
  rewrite !loadPersona_resolved, (detect_30d _ _ _ H30).
  split_and!.
  - done.
  - intros other s'. rewrite loadPersona_resolved.
    by rewrite (detect_30d _ d30) by by rewrite lookup_insert_ne.
  - intros s'. rewrite loadPersona_resolved.
    by rewrite (detect_30d _ d30) by by rewrite lookup_delete_ne.
  - rewrite (detect_180d _ d180); [done| |].
    + by rewrite lookup_delete_eq.
    + by rewrite lookup_delete_ne.
Qed.

(** A user who is high_utilization over 30 days and savings_builder over
    180 days is routed as high_utilization. *)
Lemma loadPersona_prefers_30d_witness :
  let d30 := {| primary_persona := Some "high_utilization"; persona := None;
                match_percentages := None |} in
  let d180 := {| primary_persona := None; persona := Some "savings_builder";
                 match_percentages := None |} in
  let table : gmap string PersonaData := {[ "30d" := d30; "180d" := d180 ]} in
  st_persona (loadPersona (Resolved {| personas := Some table |}) initial)
  = Some "high_utilization"
  ∧ route (Some "high_utilization") = BalanceTransferModule.
Proof.
  intros d30 d180 table. split; [|reflexivity].
  destruct (loadPersona_prefers_30d table d30 d180 initial) as [H _];
    [reflexivity | reflexivity |].
  exact H.
Defined.

End PersonaRouting.

(** ** Persona classification *)

Section Classification.
Import JS PersonaClassifier.

Implicit Types (s : SignalSet) (r : Rule) (rules : list Rule)
  (out : Persona * list string).

(** The boolean predicate of rule 1 says what the spec's wording says. *)
Lemma high_utilization_rule_spec s :
  rule_predicate high_utilization_rule s = true ↔ HighUtilizationCriteria s.
Proof.
  unfold HighUtilizationCriteria. simpl. unfold any_utilization_high.
  rewrite !orb_true_iff, existsb_exists, bool_decide_eq_true.
  split.
  - intros [[[(u & Hin & Hu)|Hi]|Hm]|Ho]; auto.
    left. exists u. apply list_elem_of_In in Hin.
    by apply bool_decide_eq_true in Hu.
  - intros [(u & Hin & Hu)|[Hi|[Hm|Ho]]]; auto.
    left. left. left. exists u. split; [by apply list_elem_of_In|].
    by apply bool_decide_eq_true.
Qed.

(** [first_match] returns a rule of the table whose predicate holds, and
    every rule ranked before it was passed over. *)
Lemma first_match_Some rules s r :
  first_match rules s = Some r ↔
  ∃ before after,
    rules = before ++ r :: after
    ∧ Forall (λ r', rule_predicate r' s = false) before
    ∧ rule_predicate r s = true.
Proof.
  induction rules as [|r0 rules IH]; simpl.
  - split; [done|]. intros (before & after & Heq & _). by destruct before.
  - destruct (rule_predicate r0 s) eqn:Hp.
    + split.
      * intros [= <-]. by exists [], rules.
      * intros ([|r1 before] & after & Heq & Hall & Hr).
        -- by injection Heq as -> _.
        -- injection Heq as <- _. inversion Hall; congruence.
    + rewrite IH. split.
      * intros (before & after & -> & Hall & Hr).
        exists (r0 :: before), after. split_and!; [done| |done].
        by constructor.
      * intros ([|r1 before] & after & Heq & Hall & Hr).
        -- injection Heq as -> _. congruence.
        -- injection Heq as _ ->. exists before, after.
           split_and!; [done| |done]. by inversion Hall.
Qed.

Lemma first_match_None rules s :
  first_match rules s = None ↔ Forall (λ r, rule_predicate r s = false) rules.
Proof.
  induction rules as [|r0 rules IH]; simpl; [by split|].
  destruct (rule_predicate r0 s) eqn:Hp.
  - split; [done|]. inversion 1; congruence.
  - rewrite IH. split; [by constructor|by inversion 1].
Qed.

(** The function computes a run of the table. *)
Lemma classify_with_evaluates rules s :
  evaluates rules s (classify_with rules s).
Proof.
  unfold classify_with. induction rules as [|r rules IH]; simpl.
  - constructor.
  - destruct (rule_predicate r s) eqn:Hp.
    + by apply eval_wins.
    + by apply eval_next.
Qed.

(** Two runs of the same table on the same signals end alike. *)
Lemma evaluates_deterministic rules s out1 out2 :
  evaluates rules s out1 → evaluates rules s out2 → out1 = out2.
Proof.
  intros H1. revert out2.
  induction H1 as [s|r rest s Hp|r rest s out Hp H1 IH]; intros out2 H2.
  - by inversion H2.
  - inversion H2; subst; [done|congruence].
  - inversion H2; subst; [congruence|]. by apply IH.
Qed.

Lemma evaluates_classify_with rules s out :
  evaluates rules s out ↔ out = classify_with rules s.
Proof.
  split.
  - intros H. eapply evaluates_deterministic; [done|].
    apply classify_with_evaluates.
  - intros ->. apply classify_with_evaluates.
Qed.

(** When rule 1 wins, at least one of its four criteria is reported. *)
Lemma high_utilization_criteria_met s :
  rule_predicate high_utilization_rule s = true →
  criteria_met high_utilization_rule s ≠ [].
Proof.
  unfold criteria_met. simpl. rewrite !orb_true_iff. intros H.
  rewrite !filter_cons. simpl.
  repeat case_decide; simpl; try done.
  destruct H as [[[H|H]|H]|H]; congruence.
Qed.

(** C3: whenever the High-Utilization criteria hold, the classifier
    answers high_utilization, with the criteria of that rule, whatever
    the lower-priority rules of the table are and whether or not their
    predicates hold as well. *)
Theorem classify_high_utilization_first s :
  HighUtilizationCriteria s →
  (classify s).1 = high_utilization
  ∧ (classify s).2 = criteria_met high_utilization_rule s
  ∧ (classify s).2 ≠ []
  ∧ (∀ lower, (classify_with (high_utilization_rule :: lower) s).1
              = high_utilization).
Proof.
  intros H. apply high_utilization_rule_spec in H.
  assert (Hwin : ∀ lower, classify_with (high_utilization_rule :: lower) s
                 = (high_utilization, criteria_met high_utilization_rule s)).
  { intros lower. symmetry. apply evaluates_classify_with.
    by apply (eval_wins high_utilization_rule). }
  unfold classify, rule_table. rewrite Hwin. split_and!; try done.
  - by apply high_utilization_criteria_met.
  - intros lower. by rewrite Hwin.
Qed.

(** A card at 68% with the minimum paid, whose subscriptions would
    satisfy rule 2 as well. *)
Lemma classify_high_utilization_witness :
  let s := {| card_utilizations := [dec 3400 5000];
              interest_charged := int 87;
              minimum_payment_only := true;
              is_overdue := false;
              recurring_merchants := 8;
              monthly_recurring := int 203;
              subscription_share := dec 15 100;
              median_pay_gap := int 14;
              irregular_frequency := false;
              cash_flow_buffer := int 2;
              growth_rate := 0;
              net_inflow := 0 |} in
  rule_predicate subscription_heavy_rule s = true
  ∧ (classify s).1 = high_utilization.
Proof.
  intros s. split; [by vm_compute|].
  apply (classify_high_utilization_first s).
  right. right. left. reflexivity.
Defined.

End Classification.

(** Persona determination read as a whole: the classifier's run of the rule
    table and the router's reading of the stored assignment. *)

Section Determinism.
Import JS PersonaClassifier PersonaModuleRouter.

(** C4: two runs on the same signal set end with the same persona and the
    same criteria_met (those of [classify]), and two runs of the router on
    the same user record leave the same state whatever state each started
    from, so that running it again changes nothing. *)
Theorem persona_determination_deterministic
    (signals : SignalSet) (out1 out2 : PersonaClassifier.Persona * list string)
    (r : awaited User) (s1 s2 : State) :
  evaluates rule_table signals out1 →
  evaluates rule_table signals out2 →
  out1 = out2
  ∧ out1 = classify signals
  ∧ loadPersona r s1 = loadPersona r s2
  ∧ loadPersona r (loadPersona r s1) = loadPersona r s1.
Proof.
  intros H1 H2. split_and!.
  - by eapply evaluates_deterministic.
  - by apply evaluates_classify_with.
  - apply loadPersona_stateless.
  - apply loadPersona_stateless.
Qed.

(** An overdue account, classified twice; a user record loaded into a
    fresh router and into one that already shows a persona. *)
Lemma persona_determination_witness :
  let signals := {| card_utilizations := [];
                    interest_charged := 0;
                    minimum_payment_only := false;
                    is_overdue := true;
                    recurring_merchants := 0;
                    monthly_recurring := 0;
                    subscription_share := 0;
                    median_pay_gap := 0;
                    irregular_frequency := false;
                    cash_flow_buffer := 0;
                    growth_rate := 0;
                    net_inflow := 0 |} in
  let user := {| personas := Some {[ "30d" :=
                   {| primary_persona := None; persona := None;
                      match_percentages :=
                        Some [("savings_builder", int 40);
                              ("subscription_heavy", int 75);
                              ("variable_income", int 75)] |} ]} |} in
  classify signals = (high_utilization, ["is_overdue"])
  ∧ loadPersona (Resolved user) initial
    = loadPersona (Resolved user)
        (setPersona (Some "savings_builder") (setLoading false initial))
  ∧ st_persona (loadPersona (Resolved user) initial) = Some "subscription_heavy".
Proof.
  intros signals user.
  destruct (persona_determination_deterministic signals
              (high_utilization, ["is_overdue"])
              (high_utilization, ["is_overdue"])
              (Resolved user) initial
              (setPersona (Some "savings_builder") (setLoading false initial)))
    as (_ & Hc & Hs & _).
  - by apply (eval_wins high_utilization_rule).
  - by apply (eval_wins high_utilization_rule).
  - split_and!; [by symmetry | exact Hs | by vm_compute].
Defined.

End Determinism.

(** ** Credit utilization on the balance-transfer and overview cards *)

Section CreditUtilization.
Import JS BalanceTransferModule.

Implicit Types (acc : Account) (sig : option CreditSignal) (u l : Qc).

Lemma num_or_truthy (v dflt : Qc) : v ≠ 0 → num_or (Some v) dflt = v.
Proof. intros H. unfold num_or. by rewrite decide_False. Qed.

Lemma num_or_falsy (x : option Qc) (dflt : Qc) :
  x = None ∨ x = Some 0 → num_or x dflt = dflt.
Proof. intros [->| ->]; unfold num_or; [done|]. by rewrite decide_True. Qed.

(** [x || 0] is [x] whenever [x] is a number at all. *)
Lemma num_or_zero (v : Qc) : num_or (Some v) 0 = v.
Proof. unfold num_or. by case_decide. Qed.

Lemma Qcdiv_1_r (x : Qc) : x / 1 = x.
Proof.
  unfold Qcdiv. replace (/ 1) with (Q2Qc 1) by by apply Qc_is_canon.
  apply Qcmult_1_r.
Qed.

(** The three ways [withSignals] arrives at a utilization. *)
Lemma withSignals_from_signal sig acc u :
  signalUtilization sig acc = Some u → u ≠ 0 →
  ca_utilization (withSignals sig acc) = u.
Proof.
  unfold signalUtilization, withSignals. simpl. intros -> Hu.
  by apply num_or_truthy.
Qed.

Lemma withSignals_from_limit sig acc l :
  signalUtilization sig acc = None ∨ signalUtilization sig acc = Some 0 →
  limit acc = Some l → l ≠ 0 →
  ca_utilization (withSignals sig acc) = balance acc / l
  ∧ ca_credit_limit (withSignals sig acc) = l.
Proof.
  unfold signalUtilization, withSignals. simpl. intros Hs -> Hl.
  rewrite (num_or_falsy _ _ Hs), !num_or_truthy by done. done.
Qed.

Lemma withSignals_without_limit sig acc :
  signalUtilization sig acc = None ∨ signalUtilization sig acc = Some 0 →
  limit acc = None ∨ limit acc = Some 0 →
  ca_utilization (withSignals sig acc) = balance acc
  ∧ ca_credit_limit (withSignals sig acc) = 0.
Proof.
  unfold signalUtilization, withSignals. simpl. intros Hs Hl.
  rewrite (num_or_falsy _ _ Hs), !(num_or_falsy _ _ Hl).
  by rewrite Qcdiv_1_r.
Qed.

(** C1, as the code has it: every credit account gets an entry, in order
    (none is skipped).  Its utilization is the signal's figure for that
    account when there is a nonzero one; otherwise balance / limit when
    the limit is present and nonzero; otherwise, the limit being zero or
    missing, balance / 1, shown with a credit limit of 0. *)
Theorem accountsWithSignals_utilization sig (accs : list Account) i acc :
  accs !! i = Some acc →
  length (accountsWithSignals sig accs) = length accs
  ∧ accountsWithSignals sig accs !! i = Some (withSignals sig acc)
  ∧ ca_account_id (withSignals sig acc) = account_id acc
  ∧ (∀ u, signalUtilization sig acc = Some u → u ≠ 0 →
          ca_utilization (withSignals sig acc) = u)
  ∧ (signalUtilization sig acc = None ∨ signalUtilization sig acc = Some 0 →
     (∀ l, limit acc = Some l → l ≠ 0 →
           ca_utilization (withSignals sig acc) = balance acc / l
           ∧ ca_credit_limit (withSignals sig acc) = l)
     ∧ (limit acc = None ∨ limit acc = Some 0 →
        ca_utilization (withSignals sig acc) = balance acc
        ∧ ca_credit_limit (withSignals sig acc) = 0)).
Proof.
  intros Hi. unfold accountsWithSignals. split_and!.
  - apply length_fmap.
  - by rewrite list_lookup_fmap, Hi.
  - done.
  - intros u. apply withSignals_from_signal.
  - intros Hs. split.
    + intros l. by apply withSignals_from_limit.
    + by apply withSignals_without_limit.
Qed.

(** The card of the spec's example, without a backend signal. *)
Lemma accountsWithSignals_utilization_witness :
  let visa := {| account_id := "acc_visa_4523"; mask := Some "4523";
                 balance := int 3400; limit := Some (int 5000) |} in
  accountsWithSignals None [visa] !! 0%nat = Some (withSignals None visa)
  ∧ ca_utilization (withSignals None visa) = int 3400 / int 5000
  ∧ int 3400 / int 5000 = dec 68 100.
Proof.
  intros visa.
  destruct (accountsWithSignals_utilization None [visa] 0 visa)
    as (_ & Hi & _ & _ & Hu); [reflexivity|].
  destruct Hu as [Hl _]; [by left|].
  destruct (Hl (int 5000)) as [Hl' _]; [reflexivity | by vm_compute |].
  split_and!; [exact Hi | exact Hl' | by apply Qc_is_canon].
Defined.

(** C1, as stated, fails: an account whose limit is missing, and one whose
    limit is zero, are not skipped; each gets the entry below, whose
    utilization is computed (it is the balance) and whose limit reads 0. *)
Lemma accountsWithSignals_keeps_account_without_limit :
  let no_limit := {| account_id := "acc_1111"; mask := None;
                     balance := int 3400; limit := None |} in
  let zero_limit := {| account_id := "acc_2222"; mask := None;
                       balance := int 1200; limit := Some 0 |} in
  ∃ ca1 ca2,
    accountsWithSignals None [no_limit; zero_limit] = [ca1; ca2]
    ∧ ca_account_id ca1 = "acc_1111" ∧ ca_utilization ca1 = int 3400
    ∧ ca_credit_limit ca1 = 0
    ∧ ca_account_id ca2 = "acc_2222" ∧ ca_utilization ca2 = int 1200
    ∧ ca_credit_limit ca2 = 0.
Proof.
  intros no_limit zero_limit.
  exists (withSignals None no_limit), (withSignals None zero_limit).
  split_and!; try reflexivity; by apply Qc_is_canon.
Qed.

(** What the badge of a card shows, by utilization: the comparisons are
    strict. *)
Lemma badgeVariant_spec u :
  (badgeVariant u = "destructive" ↔ dec 50 100 < u)
  ∧ (badgeVariant u = "default" ↔ dec 30 100 < u ∧ u ≤ dec 50 100)
  ∧ (badgeVariant u = "secondary" ↔ u ≤ dec 30 100).
Proof.
  assert (H53 : dec 3 10 < dec 5 10) by by vm_compute.
  assert (E5 : dec 50 100 = dec 5 10) by by apply Qc_is_canon.
  assert (E3 : dec 30 100 = dec 3 10) by by apply Qc_is_canon.
  rewrite E5, E3. unfold badgeVariant.
  destruct (decide (dec 5 10 < u)) as [H5|H5].
  - split_and!; split; try done.
    + intros [_ H]. by apply Qcle_not_lt in H.
    + intros H. exfalso. apply Qcle_not_lt in H. apply H.
      by etrans.
  - apply Qcnot_lt_le in H5.
    destruct (decide (dec 3 10 < u)) as [H3|H3].
    + split_and!; split; try done.
      * intros H. by apply Qcle_not_lt in H5.
      * intros H. by apply Qcle_not_lt in H.
    + apply Qcnot_lt_le in H3. split_and!; split; try done.
      * intros H. exfalso. apply Qcle_not_lt in H5. by apply H5.
      * intros [H _]. by apply Qcle_not_lt in H3.
Qed.

(** C2, evaluated on the code.  The badge of the balance-transfer card is
    "destructive" (high) only above 0.50: an account with balance 2,500
    and limit 5,000, at exactly 0.50, gets "default" (medium), and a
    utilization of exactly 0.30 gets "secondary" (low).  The spec's example
    account, 3,400 of 5,000, has utilization 0.68 and is flagged high
    there; the overview card, which compares with 80 and 50, styles 0.68
    as success and 68 as warning, while the mission page label puts 50 in
    its highest band. *)
Theorem utilization_flag_at_thresholds :
  let half := {| account_id := "acc_2500"; mask := None;
                 balance := int 2500; limit := Some (int 5000) |} in
  let visa := {| account_id := "acc_visa_4523"; mask := Some "4523";
                 balance := int 3400; limit := Some (int 5000) |} in
  let card u := {| Overview.mask := Some "4523"; Overview.balance := int 3400;
                   Overview.limit := Some (int 5000);
                   Overview.utilization := Some u;
                   Overview.available := Some (int 1600) |} in
  (∀ u, badgeVariant u = "destructive" ↔ dec 50 100 < u)
  ∧ ca_utilization (withSignals None half) = dec 50 100
  ∧ badgeVariant (ca_utilization (withSignals None half)) = "default"
  ∧ barColour (ca_utilization (withSignals None half)) = "bg-yellow-600"
  ∧ badgeVariant (dec 30 100) = "secondary"
  ∧ ca_utilization (withSignals None visa) = dec 68 100
  ∧ badgeVariant (ca_utilization (withSignals None visa)) = "destructive"
  ∧ Overview.utilizationClass (card (dec 68 100)) = Some "text-trust-success"
  ∧ Overview.utilizationClass (card (int 68)) = Some "text-trust-warning"
  ∧ Overview.missionLabel (int 50) = "Needs attention".
Proof.
  intros half visa card.
  assert (Hhalf : ca_utilization (withSignals None half) = dec 50 100)
    by by apply Qc_is_canon.
  assert (Hvisa : ca_utilization (withSignals None visa) = dec 68 100)
    by by apply Qc_is_canon.
  rewrite Hhalf, Hvisa.
  split_and!; try done.
  intros u. apply badgeVariant_spec.
Qed.

End CreditUtilization.

(** ** The subscription total *)

Section SubscriptionTotal.
Import JS SubscriptionModule.

Implicit Types (m : Merchant) (signals : Signals) (s : State).

(** A merchant's monthly figure: its own when it carries a nonzero one,
    else its amount, else 0. *)
Lemma toSubscription_monthly_equivalent m :
  (∀ v, m_monthly_equivalent m = Some v → v ≠ 0 →
        monthly_equivalent (toSubscription m) = v)
  ∧ (∀ a, m_monthly_equivalent m = None ∨ m_monthly_equivalent m = Some 0 →
          m_amount m = Some a →
          monthly_equivalent (toSubscription m) = a)
  ∧ (m_monthly_equivalent m = None ∨ m_monthly_equivalent m = Some 0 →
     m_amount m = None →
     monthly_equivalent (toSubscription m) = 0).
Proof.
  unfold toSubscription. simpl. split_and!.
  - intros v -> Hv. by apply num_or_truthy.
  - intros a Hme ->. by rewrite (num_or_falsy _ _ Hme), num_or_zero.
  - intros Hme ->. by rewrite (num_or_falsy _ _ Hme).
Qed.

(** With merchants to show, [loadData] stores the mapped list and the
    totals; with none it leaves list and totals as they were. *)
Lemma loadData_resolved signals s :
  let sig := subscriptions_signal signals in
  let s' := loadData (Resolved signals) s in
  (merchantData sig ≠ [] →
   subscriptions s' = toSubscription <$> merchantData sig
   ∧ totalMonthly s' = num_or (sig ≫= monthly_recurring) 0
   ∧ totalYearly s' = num_or (sig ≫= monthly_recurring) 0 * int 12)
  ∧ (merchantData sig = [] →
     subscriptions s' = subscriptions s
     ∧ totalMonthly s' = totalMonthly s
     ∧ totalYearly s' = totalYearly s).
Proof.
  intros sig s'. subst s'. unfold loadData. fold sig.
  destruct (merchantData sig) as [|m data] eqn:Hdata.
  - split; [done|]. intros _.
    by rewrite bool_decide_eq_false_2 by (simpl; lia).
  - split; [|done]. intros _.
    by rewrite bool_decide_eq_true_2 by (simpl; lia).
Qed.

(** C6, as the code has it: when the signal lists merchants, the tiles
    are those merchants, each with its monthly_equivalent (defaulting to
    its amount when absent), and the displayed monthly total is the
    signal's own monthly_recurring field, 0 when that is absent; the
    yearly total is twelve times it.  The module does not add up the
    list: the total is the sum over the tiles exactly when the signal's
    field is. *)
Theorem loadData_total_is_signal_field signals s :
  merchantData (subscriptions_signal signals) ≠ [] →
  let sig := subscriptions_signal signals in
  let s' := loadData (Resolved signals) s in
  subscriptions s' = toSubscription <$> merchantData sig
  ∧ (∀ m a, m ∈ merchantData sig →
            m_monthly_equivalent m = None → m_amount m = Some a →
            monthly_equivalent (toSubscription m) = a)
  ∧ (∀ total, sig ≫= monthly_recurring = Some total → totalMonthly s' = total)
  ∧ (sig ≫= monthly_recurring = None → totalMonthly s' = 0)
  ∧ totalYearly s' = totalMonthly s' * int 12
  ∧ (totalMonthly s' = listed_total (subscriptions s')
     ↔ num_or (sig ≫= monthly_recurring) 0 = listed_total (subscriptions s')).
Proof.
  intros Hdata sig s'.
  destruct (loadData_resolved signals s) as [Hload _].
  destruct (Hload Hdata) as (Hsubs & Hmonthly & Hyearly).
  fold sig s' in Hsubs, Hmonthly, Hyearly.
  split_and!.
  - done.
  - intros m a _ Hme Ha.
    destruct (toSubscription_monthly_equivalent m) as (_ & H & _).
    apply H; [by left|done].
  - intros total Htotal. rewrite Hmonthly, Htotal. apply num_or_zero.
  - intros Hnone. by rewrite Hmonthly, Hnone.
  - by rewrite Hyearly, Hmonthly.
  - by rewrite Hmonthly.
Qed.

(** Two monthly merchants and a signal total that agrees with them. *)
Lemma loadData_total_witness :
  let netflix := {| m_merchant := Some "Netflix"; m_amount := Some (dec 1599 100);
                    m_monthly_equivalent := None; m_frequency := None |} in
  let spotify := {| m_merchant := Some "Spotify"; m_amount := Some (dec 999 100);
                    m_monthly_equivalent := Some (dec 999 100);
                    m_frequency := Some "monthly" |} in
  let signals := {| subscriptions_signal := Some
                      {| merchant_details := None;
                         recurring_merchants := Some [netflix; spotify];
                         monthly_recurring := Some (dec 2598 100) |} |} in
  totalMonthly (loadData (Resolved signals) initial) = dec 2598 100
  ∧ totalYearly (loadData (Resolved signals) initial)
    = totalMonthly (loadData (Resolved signals) initial) * int 12.
Proof.
  intros netflix spotify signals.
  destruct (loadData_total_is_signal_field signals initial)
    as (_ & _ & Htotal & _ & Hyearly & _); [done|].
  split; [|exact Hyearly].
  by apply Htotal.
Defined.

(** C6, as stated, fails: a signal that lists Netflix at 15.99 and carries
    no monthly_recurring is displayed with a total of 0 above a tile of
    15.99; and a signal whose monthly_recurring is 45 is displayed with 45
    above tiles that add up to 25.98. *)
Lemma loadData_total_differs_from_listed_sum :
  let netflix := {| m_merchant := Some "Netflix"; m_amount := Some (dec 1599 100);
                    m_monthly_equivalent := None; m_frequency := None |} in
  let spotify := {| m_merchant := Some "Spotify"; m_amount := Some (dec 999 100);
                    m_monthly_equivalent := Some (dec 999 100);
                    m_frequency := Some "monthly" |} in
  let without_total := {| subscriptions_signal := Some
                            {| merchant_details := None;
                               recurring_merchants := Some [netflix];
                               monthly_recurring := None |} |} in
  let other_total := {| subscriptions_signal := Some
                          {| merchant_details := None;
                             recurring_merchants := Some [netflix; spotify];
                             monthly_recurring := Some (int 45) |} |} in
  totalMonthly (loadData (Resolved without_total) initial) = 0
  ∧ listed_total (subscriptions (loadData (Resolved without_total) initial))
    = dec 1599 100
  ∧ totalMonthly (loadData (Resolved other_total) initial) = int 45
  ∧ listed_total (subscriptions (loadData (Resolved other_total) initial))
    = dec 2598 100
  ∧ totalMonthly (loadData (Resolved other_total) initial)
    ≠ listed_total (subscriptions (loadData (Resolved other_total) initial)).
Proof.
  intros netflix spotify without_total other_total.
  assert (H1 : listed_total
                 (subscriptions (loadData (Resolved without_total) initial))
               = dec 1599 100) by by apply Qc_is_canon.
  assert (H2 : listed_total
                 (subscriptions (loadData (Resolved other_total) initial))
               = dec 2598 100) by by apply Qc_is_canon.
  assert (H3 : totalMonthly (loadData (Resolved other_total) initial) = int 45)
    by by apply Qc_is_canon.
  split_and!; [by apply Qc_is_canon | exact H1 | exact H3 | exact H2 |].
  rewrite H2, H3. intros H. by apply (f_equal Qcanon.this) in H.
Qed.

End SubscriptionTotal.

(** ** Rounding up *)

Section RoundingUp.
Import JS.

(** [Math.ceil] gives the least integer that is not below its argument. *)
Lemma ceil_spec (x : Qc) : x ≤ ceil x ∧ ceil x - int 1 < x.
Proof.
  unfold ceil, int, Qcle, Qclt, Qcminus, Qcplus, Qcopp. simpl.
  rewrite !Qred_correct. split.
  - apply Qle_ceiling.
  - pose proof (Qceiling_lt x) as H. unfold Z.sub in H.
    rewrite inject_Z_plus, inject_Z_opp in H. exact H.
Qed.

End RoundingUp.

(** ** Guardrails on emitted recommendations *)

Section Guardrails.
Import PersonaClassifier Guardrail.

Variable prohibited : list string.
Variable signals : SignalSet.

Implicit Types (c : Candidate) (ranked rest : list Candidate)
  (phrase text : string) (slots : nat).

Lemma prefix_spec phrase text :
  String.prefix phrase text = true ↔ ∃ after, text = phrase +:+ after.
Proof.
  revert text. induction phrase as [|a phrase IH]; intros text.
  - split; [intros _; by exists text|]. intros _. by destruct text.
  - destruct text as [|b text].
    + split; [done|]. intros [after H]. discriminate H.
    + change (String.prefix (String a phrase) (String b text))
        with (if Ascii.ascii_dec a b then String.prefix phrase text else false).
      destruct (Ascii.ascii_dec a b) as [->|Hne].
      * rewrite IH. split.
        -- intros [after ->]. by exists after.
        -- intros [after H]. injection H as ->. by exists after.
      * split; [done|]. intros [after H]. injection H as -> _. done.
Qed.

(** [contains] decides occurrence as a part of the text. *)
Lemma contains_spec phrase text :
  contains phrase text = true ↔ occurs_in phrase text.
Proof.
  unfold occurs_in. induction text as [|b text IH].
  - cbn [contains]. rewrite orb_false_r, prefix_spec. split.
    + intros [after H]. by exists "", after.
    + intros ([|x before] & after & H); [by exists after|done].
  - cbn [contains]. rewrite orb_true_iff, prefix_spec, IH. split.
    + intros [[after H]|(before & after & ->)].
      * by exists "", after.
      * by exists (String b before), after.
    + intros ([|x before] & after & H).
      * left. by exists after.
      * right. injection H as -> ->. by exists before, after.
Qed.

Lemma tone_check_spec text :
  tone_check prohibited text = true ↔
  ∀ phrase, phrase ∈ prohibited → ¬ occurs_in phrase text.
Proof.
  unfold tone_check. rewrite forallb_forall. split.
  - intros H phrase Hin Hocc. apply list_elem_of_In, H in Hin.
    apply contains_spec in Hocc. by rewrite Hocc in Hin.
  - intros H phrase Hin. apply list_elem_of_In, H in Hin.
    destruct (contains phrase text) eqn:Hc; [|done].
    by apply contains_spec in Hc.
Qed.

(** The candidate taken for a slot passes both checks; the ones ranked
    before it were discarded because they fail one. *)
Lemma next_compliant_Some ranked c rest :
  next_compliant prohibited signals ranked = Some (c, rest) ↔
  ∃ discarded,
    ranked = discarded ++ c :: rest
    ∧ Forall (λ c', passes prohibited signals c' = false) discarded
    ∧ passes prohibited signals c = true.
Proof.
  induction ranked as [|c0 ranked IH]; simpl.
  - split; [done|]. intros (discarded & H & _). by destruct discarded.
  - destruct (passes prohibited signals c0) eqn:Hp.
    + split.
      * intros [= <- <-]. by exists [].
      * intros ([|c1 discarded] & Heq & Hall & Hc).
        -- by injection Heq as -> ->.
        -- injection Heq as <- _. inversion Hall; congruence.
    + rewrite IH. split.
      * intros (discarded & -> & Hall & Hc). exists (c0 :: discarded).
        split_and!; [done| |done]. by constructor.
      * intros ([|c1 discarded] & Heq & Hall & Hc).
        -- injection Heq as -> _. congruence.
        -- injection Heq as _ ->. exists discarded.
           split_and!; [done| |done]. by inversion Hall.
Qed.

Lemma next_compliant_None ranked :
  next_compliant prohibited signals ranked = None ↔
  filter (λ c, passes prohibited signals c = true) ranked = [].
Proof.
  induction ranked as [|c0 ranked IH]; simpl; [done|].
  destruct (passes prohibited signals c0) eqn:Hp.
  - rewrite filter_cons_True by done. done.
  - rewrite filter_cons_False by congruence. done.
Qed.

(** What fills the slots: the compliant candidates in rank order, as many
    as there are slots. *)
Lemma fill_slots_take_filter slots ranked :
  fill_slots prohibited signals slots ranked
  = take slots
      (to_recommendation
         <$> filter (λ c, passes prohibited signals c = true) ranked).
Proof.
  revert ranked. induction slots as [|slots IH]; intros ranked; [done|].
  simpl. destruct (next_compliant prohibited signals ranked)
    as [[c rest]|] eqn:Hnext.
  - apply next_compliant_Some in Hnext as (discarded & -> & Hall & Hc).
    rewrite filter_app, filter_cons_True by done.
    replace (filter _ discarded) with (@nil Candidate).
    + simpl. by rewrite IH.
    + symmetry. induction Hall as [|c' l Hc' Hall IHl]; [done|].
      rewrite filter_cons_False by congruence. done.
  - apply next_compliant_None in Hnext. by rewrite Hnext.
Qed.

(** C7: no recommendation that fills a slot has a rationale in which a
    prohibited phrase occurs.  A candidate that fails a check is replaced
    by the next-ranked one that passes, so the slots hold the compliant
    candidates in rank order; slots for which none remains are omitted. *)
Theorem fill_slots_no_prohibited_phrase slots ranked :
  Forall (λ rec, ∀ phrase, phrase ∈ prohibited →
                           ¬ occurs_in phrase (rationale rec))
         (fill_slots prohibited signals slots ranked)
  ∧ fill_slots prohibited signals slots ranked
    = take slots
        (to_recommendation
           <$> filter (λ c, passes prohibited signals c = true) ranked)
  ∧ length (fill_slots prohibited signals slots ranked)
    = (slots `min`
       length (filter (λ c, passes prohibited signals c = true) ranked))%nat.
Proof.
  rewrite fill_slots_take_filter. split_and!.
  - apply Forall_take, Forall_fmap, Forall_forall.
    intros c Hc. apply list_elem_of_filter in Hc as [Hpass _].
    unfold passes in Hpass. apply andb_true_iff in Hpass as [Htone _].
    simpl. by apply tone_check_spec.
  - done.
  - by rewrite length_take, length_fmap.
Qed.

End Guardrails.

(** Three ranked candidates for two slots: the first is discarded for
    its wording, the other two are emitted; with one more slot than
    compliant candidates the last slot is omitted. *)
Lemma fill_slots_witness :
  let prohibited := ["bad habits"; "you're overspending"; "poor choices"] in
  let signals := {| PersonaClassifier.card_utilizations := [JS.dec 68 100];
                    PersonaClassifier.interest_charged := JS.int 87;
                    PersonaClassifier.minimum_payment_only := true;
                    PersonaClassifier.is_overdue := false;
                    PersonaClassifier.recurring_merchants := 0;
                    PersonaClassifier.monthly_recurring := 0;
                    PersonaClassifier.subscription_share := 0;
                    PersonaClassifier.median_pay_gap := 0;
                    PersonaClassifier.irregular_frequency := false;
                    PersonaClassifier.cash_flow_buffer := 0;
                    PersonaClassifier.growth_rate := 0;
                    PersonaClassifier.net_inflow := 0 |} in
  let shaming := {| Guardrail.c_type := Guardrail.education;
                    Guardrail.c_content_id := "edu_min_payment";
                    Guardrail.c_title := "Minimum payments";
                    Guardrail.c_rationale :=
                      "Your bad habits cost you $87 in interest.";
                    Guardrail.c_eligibility := None |} in
  let neutral := {| Guardrail.c_type := Guardrail.education;
                    Guardrail.c_content_id := "edu_credit_util_101";
                    Guardrail.c_title := "Understanding Credit Utilization";
                    Guardrail.c_rationale :=
                      "Your Visa ending in 4523 is at 68% utilization.";
                    Guardrail.c_eligibility := None |} in
  let offer := {| Guardrail.c_type := Guardrail.partner_offer;
                  Guardrail.c_content_id := "offer_balance_transfer";
                  Guardrail.c_title := "Balance Transfer Credit Card";
                  Guardrail.c_rationale :=
                    "You paid $87 in interest last month.";
                  Guardrail.c_eligibility :=
                    Some PersonaClassifier.any_utilization_high |} in
  Guardrail.content_id
    <$> Guardrail.fill_slots prohibited signals 2 [shaming; neutral; offer]
  = ["edu_credit_util_101"; "offer_balance_transfer"]
  ∧ length (Guardrail.fill_slots prohibited signals 3 [shaming; neutral; offer])
    = 2%nat
  ∧ Forall (λ rec, ∀ phrase, phrase ∈ prohibited →
                             ¬ Guardrail.occurs_in phrase (Guardrail.rationale rec))
           (Guardrail.fill_slots prohibited signals 2 [shaming; neutral; offer]).
Proof.
  intros prohibited signals shaming neutral offer.
  split_and!; [by vm_compute | by vm_compute |].
  apply (fill_slots_no_prohibited_phrase prohibited signals 2
           [shaming; neutral; offer]).
Defined.

(** * Further properties of the components *)

(** ** Selecting tiles *)

Section TileSelection.
Import SubscriptionModule SubscriptionSelection.

Implicit Types (prev : list nat) (i j index : nat) (s : State).

Lemma selectAll_indices s :
  selectedIndices (selectAll s) = seq 0 (length (subscriptions s)).
Proof.
  simpl. generalize (subscriptions s). intros l.
  assert (H : ∀ k, imap (λ i (_ : Subscription), (k + i)%nat) l
                   = seq k (length l)).
  { induction l as [|x l IH]; intros k; [done|].
    simpl. rewrite Nat.add_0_r. f_equal. rewrite <- IH.
    apply imap_ext. intros i y _. simpl. lia. }
  apply (H 0%nat).
Qed.

Lemma filter_other_length index prev :
  NoDup prev → index ∈ prev →
  S (length (filter (λ i, i ≠ index) prev)) = length prev.
Proof.
  induction 1 as [|x prev Hx Hnd IH]; [by rewrite elem_of_nil|].
  rewrite elem_of_cons. intros [->|Hin].
  - rewrite filter_cons_False by (intros H; by apply H).
    by rewrite filter_other_id.
  - rewrite filter_cons_True by (intros ->; done).
    simpl. by rewrite IH.
Qed.

Lemma isSelected_toggle s index j :
  isSelected j (toggleSubscription index s)
  = (if decide (j = index) then negb (isSelected index s) else isSelected j s).
Proof.
  unfold isSelected. simpl.
  destruct (decide (j = index)) as [->|Hne].
  - destruct (decide (index ∈ selectedIndices s)) as [Hin|Hnot].
    + rewrite (bool_decide_eq_true_2 (index ∈ selectedIndices s)) by done.
      apply bool_decide_eq_false_2. rewrite elem_of_toggle. tauto.
    + rewrite (bool_decide_eq_false_2 (index ∈ selectedIndices s)) by done.
      apply bool_decide_eq_true_2. rewrite elem_of_toggle. tauto.
  - apply bool_decide_ext. rewrite elem_of_toggle. tauto.
Qed.

(** X1: a click on a tile flips the selection of that tile and of no
    other, and touches nothing else of the component's state. *)
Theorem toggleSubscription_flips_clicked_tile s index j :
  isSelected j (toggleSubscription index s)
  = (if decide (j = index) then negb (isSelected index s) else isSelected j s)
  ∧ subscriptions (toggleSubscription index s) = subscriptions s
  ∧ totalMonthly (toggleSubscription index s) = totalMonthly s
  ∧ totalYearly (toggleSubscription index s) = totalYearly s
  ∧ loading (toggleSubscription index s) = loading s
  ∧ error (toggleSubscription index s) = error s.
Proof. split_and!; try done. apply isSelected_toggle. Qed.

(** X2: on a selection without duplicates a click changes the number of
    selected tiles by exactly one: one fewer when the tile was selected,
    one more when it was not. *)
Theorem toggleSubscription_count s index :
  NoDup (selectedIndices s) →
  length (selectedIndices (toggleSubscription index s))
  = if isSelected index s
    then (length (selectedIndices s) - 1)%nat
    else S (length (selectedIndices s)).
Proof.
  intros Hnd. unfold isSelected. simpl. case_bool_decide as Hin.
  - rewrite toggle_present by done.
    pose proof (filter_other_length index _ Hnd Hin). lia.
  - rewrite toggle_absent by done. rewrite length_app. simpl. lia.
Qed.

Lemma toggleSubscription_count_witness :
  let s := setSelectedIndices (λ _, [3; 0; 1]%nat) initial in
  length (selectedIndices (toggleSubscription 0 s)) = 2%nat
  ∧ length (selectedIndices (toggleSubscription 2 s)) = 4%nat.
Proof.
  intros s. split.
  - apply (toggleSubscription_count s 0). by apply (bool_decide_unpack _).
  - apply (toggleSubscription_count s 2). by apply (bool_decide_unpack _).
Defined.

(** X3: "Select All" selects exactly the tiles shown, each once, whatever
    was selected before; a click on a shown tile then deselects that tile
    alone; "Deselect All" leaves nothing selected. *)
Theorem selectAll_selects_every_tile s j :
  (isSelected j (selectAll s) = true ↔ (j < length (subscriptions s))%nat)
  ∧ NoDup (selectedIndices (selectAll s))
  ∧ length (selectedIndices (selectAll s)) = length (subscriptions s)
  ∧ (∀ index, (index < length (subscriptions s))%nat →
       isSelected j (toggleSubscription index (selectAll s)) = true
       ↔ (j < length (subscriptions s))%nat ∧ j ≠ index)
  ∧ isSelected j (deselectAll s) = false.
Proof.
  assert (Hin : ∀ k, k ∈ selectedIndices (selectAll s)
                     ↔ (k < length (subscriptions s))%nat).
  { intros k. rewrite selectAll_indices, elem_of_seq. lia. }
  split_and!.
  - unfold isSelected. by rewrite bool_decide_eq_true.
  - rewrite selectAll_indices. apply NoDup_seq.
  - by rewrite selectAll_indices, length_seq.
  - intros index Hindex.
    rewrite isSelected_toggle. unfold isSelected. case_decide as Hj.
    + subst j. rewrite (bool_decide_eq_true_2 _ (proj2 (Hin index) Hindex)).
      simpl. split; [done|]. by intros [_ H].
    + rewrite bool_decide_eq_true, Hin. tauto.
  - done.
Qed.

End TileSelection.

(** ** Logos and cancellation guides *)

Section MerchantLinks.
Import SubscriptionLinks.

Variables toLowerCase trim encodeURIComponent : string → string.

Implicit Types (text key merchant clean : string)
  (table : list (string * string)).

(** [includes] decides whether the key is a part of the text. *)
Lemma includes_spec text key :
  includes text key = true ↔ ∃ before after, text = before +:+ key +:+ after.
Proof.
  induction text as [|b text IH].
  - cbn [includes]. rewrite orb_false_r, prefix_spec. split.
    + intros [after H]. by exists "", after.
    + intros ([|x before] & after & H); [by exists after|done].
  - cbn [includes]. rewrite orb_true_iff, prefix_spec, IH. split.
    + intros [[after H]|(before & after & ->)].
      * by exists "", after.
      * by exists (String b before), after.
    + intros ([|x before] & after & H).
      * left. by exists after.
      * right. injection H as -> ->. by exists before, after.
Qed.

(** The loop returns the value of the first key, in table order, that
    the name includes. *)
Lemma firstIncluded_Some clean table value :
  firstIncluded clean table = Some value ↔
  ∃ before key after,
    table = before ++ (key, value) :: after
    ∧ Forall (λ entry, includes clean entry.1 = false) before
    ∧ includes clean key = true.
Proof.
  induction table as [|[k v] table IH]; simpl.
  - split; [done|]. intros (before & key & after & H & _). by destruct before.
  - destruct (includes clean k) eqn:Hk.
    + split.
      * intros [= <-]. by exists [], k, table.
      * intros ([|e before] & key & after & Heq & Hall & Hkey).
        -- by injection Heq as _ -> _.
        -- injection Heq as <- _. inversion Hall; simpl in *; congruence.
    + rewrite IH. split.
      * intros (before & key & after & -> & Hall & Hkey).
        exists ((k, v) :: before), key, after. split_and!; [done| |done].
        by constructor.
      * intros ([|e before] & key & after & Heq & Hall & Hkey).
        -- injection Heq as -> _ _. congruence.
        -- injection Heq as _ ->. exists before, key, after.
           split_and!; [done| |done]. by inversion Hall.
Qed.

Lemma firstIncluded_None clean table :
  firstIncluded clean table = None ↔
  Forall (λ entry, includes clean entry.1 = false) table.
Proof.
  induction table as [|[k v] table IH]; simpl; [by split|].
  destruct (includes clean k) eqn:Hk.
  - split; [done|]. inversion 1; simpl in *; congruence.
  - rewrite IH. split; [by constructor|by inversion 1].
Qed.

(** Every service with a cancellation guide has a logo in the logo
    table. *)
Lemma cancellationLinks_keys_have_logos :
  Forall (λ key, key ∈ logoMap.*1) (cancellationLinks.*1).
Proof. by apply (bool_decide_unpack _). Qed.

(** X4: a merchant for which a "Cancel Guide" link is shown never falls
    back to the generated avatar: its logo is one of the logo table. *)
Theorem getCancellationLink_implies_known_logo merchant link :
  getCancellationLink toLowerCase trim merchant = Some link →
  getMerchantLogo toLowerCase trim encodeURIComponent merchant ∈ logoMap.*2
  ∧ link ∈ cancellationLinks.*2.
Proof.
  unfold getCancellationLink, getMerchantLogo.
  set (clean := cleanMerchant toLowerCase trim merchant).
  intros Hlink.
  apply firstIncluded_Some in Hlink
    as (before & key & after & Htable & _ & Hkey).
  assert (Hcancel : (key, link) ∈ cancellationLinks).
  { rewrite Htable, elem_of_app, elem_of_cons. auto. }
  split.
  - assert (Hlogo : key ∈ logoMap.*1).
    { pose proof cancellationLinks_keys_have_logos as Hall.
      rewrite Forall_forall in Hall. apply Hall.
      apply list_elem_of_fmap. by exists (key, link). }
    destruct (firstIncluded clean logoMap) as [logo|] eqn:Hfirst.
    + apply firstIncluded_Some in Hfirst
        as (before' & key' & after' & Htable' & _ & _).
      apply list_elem_of_fmap. exists (key', logo). split; [done|].
      rewrite Htable', elem_of_app, elem_of_cons. auto.
    + exfalso. apply firstIncluded_None in Hfirst.
      rewrite Forall_forall in Hfirst.
      apply list_elem_of_fmap in Hlogo as ([k v] & -> & Hin).
      specialize (Hfirst _ Hin). simpl in *. congruence.
  - apply list_elem_of_fmap. by exists (key, link).
Qed.

(** X5: no "Cancel Guide" link is shown exactly when none of the nine
    service names is a part of the cleaned merchant name; otherwise the
    link is that of the first service name, in table order, that is. *)
Theorem getCancellationLink_first_service merchant :
  (getCancellationLink toLowerCase trim merchant = None ↔
   ∀ key, key ∈ cancellationLinks.*1 →
          ¬ ∃ before after,
              cleanMerchant toLowerCase trim merchant = before +:+ key +:+ after)
  ∧ (∀ link,
       getCancellationLink toLowerCase trim merchant = Some link ↔
       ∃ earlier key later,
         cancellationLinks = earlier ++ (key, link) :: later
         ∧ (∃ before after,
              cleanMerchant toLowerCase trim merchant = before +:+ key +:+ after)
         ∧ ∀ other, other ∈ earlier.*1 →
             ¬ ∃ before after,
                 cleanMerchant toLowerCase trim merchant
                 = before +:+ other +:+ after).
Proof.
  unfold getCancellationLink.
  set (clean := cleanMerchant toLowerCase trim merchant).
  assert (Hall : ∀ table,
            Forall (λ entry, includes clean entry.1 = false) table ↔
            ∀ key, key ∈ table.*1 →
                   ¬ ∃ before after, clean = before +:+ key +:+ after).
  { intros table. rewrite Forall_forall. split.
    - intros H key Hkey Hocc. apply list_elem_of_fmap in Hkey as (e & -> & He).
      apply includes_spec in Hocc. specialize (H e He). congruence.
    - intros H e He. destruct (includes clean e.1) eqn:Hinc; [|done].
      exfalso. apply (H e.1); [|by apply includes_spec].
      apply list_elem_of_fmap. by exists e. }
  split.
  - by rewrite firstIncluded_None, Hall.
  - intros link. rewrite firstIncluded_Some. split.
    + intros (earlier & key & later & Htable & Hearlier & Hkey).
      exists earlier, key, later. split_and!; [done| |].
      * by apply includes_spec.
      * by apply Hall.
    + intros (earlier & key & later & Htable & Hkey & Hearlier).
      exists earlier, key, later. split_and!; [done| |].
      * by apply Hall.
      * by apply includes_spec.
Qed.

End MerchantLinks.

(** A name in capitals with blanks around it, read with the ASCII
    versions of the built-ins. *)
Lemma getCancellationLink_witness :
  SubscriptionLinks.getCancellationLink SubscriptionLinks.toLowerCaseAscii
    SubscriptionLinks.trimAscii " NETFLIX.COM "
  = Some "https://help.netflix.com/en/node/407"
  ∧ SubscriptionLinks.getMerchantLogo SubscriptionLinks.toLowerCaseAscii
      SubscriptionLinks.trimAscii (λ s, s) " NETFLIX.COM "
    ∈ SubscriptionLinks.logoMap.*2.
Proof.
  split; [reflexivity|].
  apply (getCancellationLink_implies_known_logo
           SubscriptionLinks.toLowerCaseAscii SubscriptionLinks.trimAscii
           (λ s, s) " NETFLIX.COM " "https://help.netflix.com/en/node/407").
  reflexivity.
Defined.

(** ** The mission progress bar *)

Section MissionProgress.
Import JS MissionCard.

Implicit Types (unit : option string) (currentValue targetValue q : Qc)
  (x : xnumber).

Lemma zero_le_hundred : (0 : Qc) ≤ int 100.
Proof. by vm_compute. Qed.

Lemma min100_max0_in_range x :
  x ≠ NotANumber → width_in_range (min100 (max0 x)).
Proof.
  assert (H0 : (0 : Qc) < int 100) by by vm_compute.
  destruct x as [q| | |]; intros Hx; [| | |done]; cbn [max0 min100].
  - destruct (decide (0 < q)) as [Hq|Hq].
    + destruct (decide (q < int 100)) as [Hh|Hh].
      * split; by apply Qclt_le_weak.
      * split; [apply zero_le_hundred|apply Qcle_refl].
    + rewrite decide_True by done.
      split; [apply Qcle_refl|apply zero_le_hundred].
  - split; [apply zero_le_hundred|apply Qcle_refl].
  - rewrite decide_True by done.
    split; [apply Qcle_refl|apply zero_le_hundred].
Qed.

Lemma min100_not_nan x : min100 x = NotANumber → x = NotANumber.
Proof. by destruct x. Qed.

Lemma times100_not_nan x : times100 x = NotANumber → x = NotANumber.
Proof. by destruct x. Qed.

Lemma div_nan currentValue targetValue :
  div currentValue targetValue = NotANumber ↔
  currentValue = 0 ∧ targetValue = 0.
Proof.
  unfold div. repeat case_decide; split; try done; try tauto.
  all: intros [? ?]; congruence.
Qed.

(** X6: the bar's width is a number between 0 and 100 for every mission,
    with one exception: a mission in a unit other than "%" whose current
    and target values are both 0 gets the width NaN.  A target of 0 with
    a positive current value fills the bar. *)
Theorem barWidth_in_range unit currentValue targetValue :
  (barWidth unit currentValue targetValue = NotANumber ↔
   unitOf unit ≠ "%" ∧ currentValue = 0 ∧ targetValue = 0)
  ∧ (barWidth unit currentValue targetValue = NotANumber
     ∨ width_in_range (barWidth unit currentValue targetValue))
  ∧ (unitOf unit ≠ "%" → targetValue = 0 → 0 < currentValue →
     barWidth unit currentValue targetValue = Fin (int 100)).
Proof.
  unfold barWidth, progressPercentage.
  destruct (decide (unitOf unit = "%")) as [Hu|Hu].
  - split_and!.
    + split; [|tauto]. intros H. apply min100_not_nan in H. simpl in H.
      discriminate H.
    + right. by apply min100_max0_in_range.
    + done.
  - destruct (decide (currentValue = 0 ∧ targetValue = 0)) as [Hz|Hz].
    + assert (Hnan : div currentValue targetValue = NotANumber)
        by by apply div_nan.
      rewrite Hnan. simpl. split_and!; [tauto | by left |].
      intros _ _ Hpos. destruct Hz as [-> _]. by apply Qclt_not_eq in Hpos.
    + assert (Hne : min100 (times100 (div currentValue targetValue))
                    ≠ NotANumber).
      { intros H. apply min100_not_nan, times100_not_nan, div_nan in H. done. }
      split_and!.
      * split; [|tauto]. intros H.
        apply min100_not_nan in H.
        destruct (min100 (times100 (div currentValue targetValue)));
          simpl in H; done.
      * right. by apply min100_max0_in_range.
      * intros _ -> Hpos. unfold div. rewrite decide_True by done.
        rewrite decide_False by (intros ->; by apply Qclt_not_eq in Hpos).
        rewrite decide_True by done. cbn [times100 min100 max0].
        by f_equal.
Qed.

End MissionProgress.

(** A savings mission at 250 of 1,000 dollars, and one without a
    target. *)
Lemma barWidth_witness :
  MissionCard.barWidth (Some "$") (JS.int 250) (JS.int 1000)
  = MissionCard.Fin (JS.int 25)
  ∧ MissionCard.barWidth (Some "$") (JS.int 250) 0
    = MissionCard.Fin (JS.int 100).
Proof.
  split.
  - unfold MissionCard.barWidth, MissionCard.progressPercentage. simpl.
    f_equal. by apply Qc_is_canon.
  - apply (barWidth_in_range (Some "$") (JS.int 250) 0); done.
Defined.

(** ** What the router shows, and the highest match *)

Section RouterView.
Import JS PersonaModuleRouter.

Implicit Types (s : State) (user : User) (d : PersonaData)
  (e : string * Qc) (entries matches : list (string * Qc)).

(** X7: once [loadPersona] has run, the router never shows the loading
    view.  After a successful request it shows the module routed for the
    stored persona, even if an earlier run had left an error; after a
    failed one it shows the error view, unless the error's message is
    empty, in which case it shows the default module. *)
Theorem render_after_loadPersona (r : awaited User) s :
  (∀ user, r = Resolved user →
     render (loadPersona r s)
     = ModuleView (route (Some (str_or (detect user s).1 "general_wellness"))))
  ∧ (∀ err, r = Rejected err →
       render (loadPersona r s)
       = if decide (message_or err "Failed to load persona" = "")
         then ModuleView SavingsGoalModule
         else ErrorView (message_or err "Failed to load persona")
                        (ErrorInfo (message_or err "Unknown error"))).
Proof.
  split.
  - intros user ->.
    pose proof (loadPersona_resolved user s) as Hp.
    unfold loadPersona in *.
    pose proof (detect_frame user (setError None (setLoading true s)))
      as (_ & _ & He).
    destruct (detect user (setError None (setLoading true s))) as [p t].
    unfold render. simpl in *. rewrite He. simpl.
    by injection Hp as ->.
  - intros err ->. unfold render. simpl.
    destruct (decide (message_or err "Failed to load persona" = ""))
      as [Hm|Hm].
    + by rewrite bool_decide_eq_false_2 by (intros H; by apply H).
    + by rewrite bool_decide_eq_true_2.
Qed.

Lemma insert_desc_perm e entries : insert_desc e entries ≡ₚ e :: entries.
Proof.
  induction entries as [|x l IH]; simpl; [done|].
  case_decide; [done|]. rewrite IH. apply Permutation_swap.
Qed.

Lemma sort_desc_perm entries : sort_desc entries ≡ₚ entries.
Proof.
  induction entries as [|e l IH]; simpl; [done|].
  fold (sort_desc l). by rewrite insert_desc_perm, IH.
Qed.

Lemma insert_desc_sorted e entries :
  StronglySorted (λ a b, b.2 ≤ a.2) entries →
  StronglySorted (λ a b, b.2 ≤ a.2) (insert_desc e entries).
Proof.
  induction 1 as [|x l Hl IH Hx]; simpl.
  - repeat constructor.
  - case_decide as Hxe.
    + constructor; [by constructor|].
      constructor; [done|].
      eapply Forall_impl; [exact Hx|]. simpl. intros y Hy.
      by eapply Qcle_trans.
    + constructor; [done|].
      rewrite insert_desc_perm. constructor; [|done].
      apply Qcnot_le_lt in Hxe. by apply Qclt_le_weak.
Qed.

(** X8: the sort behind "highest match" rearranges the entries without
    losing or inventing any, and puts them in non-increasing order of
    percentage. *)
Theorem sort_desc_sorted_permutation entries :
  sort_desc entries ≡ₚ entries
  ∧ StronglySorted (λ a b, b.2 ≤ a.2) (sort_desc entries).
Proof.
  split; [apply sort_desc_perm|].
  induction entries as [|e l IH]; simpl; [constructor|].
  by apply insert_desc_sorted.
Qed.

(** The entry the sort puts first: the first of the entries, in their
    own order, with the largest percentage. *)
Lemma sort_desc_head entries name pct rest :
  sort_desc entries = (name, pct) :: rest →
  ∃ before after,
    entries = before ++ (name, pct) :: after
    ∧ Forall (λ e, e.2 < pct) before
    ∧ Forall (λ e, e.2 ≤ pct) after.
Proof.
  revert name pct rest.
  induction entries as [|e l IH]; intros name pct rest; [done|].
  simpl. fold (sort_desc l).
  destruct (sort_desc l) as [|[xn xp] sorted] eqn:Hsorted.
  - simpl. intros [= -> _].
    assert (l = []) as ->.
    { apply Permutation_nil_r. by rewrite <- (sort_desc_perm l), Hsorted. }
    by exists [], [].
  - destruct (IH xn xp sorted eq_refl) as (before & after & -> & Hb & Ha).
    simpl. case_decide as Hle.
    + intros [= -> _]. exists [], (before ++ (xn, xp) :: after).
      split_and!; [done|done|]. simpl in Hle.
      apply Forall_app. split; [|constructor].
      * eapply Forall_impl; [exact Hb|]. simpl. intros y Hy.
        apply Qclt_le_weak. by eapply Qclt_le_trans.
      * done.
      * eapply Forall_impl; [exact Ha|]. simpl. intros y Hy.
        by eapply Qcle_trans.
    + intros [= -> -> _]. exists (e :: before), after.
      split_and!; [done| |done].
      constructor; [|done]. by apply Qcnot_le_lt in Hle.
Qed.

(** X9: when a window entry names no persona and carries match
    percentages, the persona detected is that of the first entry with the
    largest percentage, provided that percentage is positive; none is
    detected exactly when no percentage is positive. *)
Theorem fromPersonaData_highest_match d matches :
  truthy_str (primary_persona d) = false →
  truthy_str (persona d) = false →
  match_percentages d = Some matches →
  (∀ name, (fromPersonaData d).1 = Some name →
     ∃ pct before after,
       matches = before ++ (name, pct) :: after
       ∧ 0 < pct
       ∧ Forall (λ e, e.2 < pct) before
       ∧ Forall (λ e, e.2 ≤ pct) after)
  ∧ ((fromPersonaData d).1 = None ↔ Forall (λ e, e.2 ≤ 0) matches).
Proof.
  intros Hprimary Hpersona Hmatches. unfold fromPersonaData.
  rewrite Hprimary, Hpersona, Hmatches.
  destruct (sort_desc matches) as [|[xn xp] sorted] eqn:Hsorted.
  - assert (matches = []) as ->.
    { apply Permutation_nil_r. by rewrite <- (sort_desc_perm matches), Hsorted. }
    split; [done|]. by split.
  - destruct (sort_desc_head _ _ _ _ Hsorted) as (before & after & -> & Hb & Ha).
    case_decide as Hpos; simpl.
    + split.
      * intros name [= <-]. by exists xp, before, after.
      * split; [done|]. intros Hall.
        apply Forall_app in Hall as [_ Hall].
        apply Forall_cons in Hall as [Hx _]. simpl in Hx.
        by apply Qcle_not_lt in Hx.
    + split; [done|]. split; [|done]. intros _.
      apply Qcnot_lt_le in Hpos.
      apply Forall_app. split; [|constructor].
      * eapply Forall_impl; [exact Hb|]. simpl. intros y Hy.
        apply Qclt_le_weak in Hy. by eapply Qcle_trans.
      * done.
      * eapply Forall_impl; [exact Ha|]. simpl. intros y Hy.
        by eapply Qcle_trans.
Qed.

(** Two personas tied at 75: the one listed first is detected. *)
Lemma fromPersonaData_highest_match_witness :
  let matches := [("savings_builder", int 40); ("subscription_heavy", int 75);
                  ("variable_income", int 75)] in
  let d := {| primary_persona := None; persona := Some "";
              match_percentages := Some matches |} in
  (fromPersonaData d).1 = Some "subscription_heavy"
  ∧ ∃ pct before after,
      matches = before ++ ("subscription_heavy", pct) :: after
      ∧ 0 < pct
      ∧ Forall (λ e, e.2 < pct) before
      ∧ Forall (λ e, e.2 ≤ pct) after.
Proof.
  intros matches d.
  assert (H : (fromPersonaData d).1 = Some "subscription_heavy")
    by by vm_compute.
  split; [exact H|].
  destruct (fromPersonaData_highest_match d matches) as [Hname _];
    [reflexivity | reflexivity | reflexivity |].
  by apply Hname.
Defined.

End RouterView.

(** ** The balance-transfer module's figures *)

Section BalanceTransferFigures.
Import JS BalanceTransferModule BalanceTransferCards.

Implicit Types (d : Loaded) (s : State) (acc : Account)
  (sig : option CreditSignal) (t : Transaction).

Lemma foldl_balance_sum sig (accs : list Account) (start : Qc) :
  foldl (λ sum acc, sum + balance acc) start accs
  = start + cards_total (accountsWithSignals sig accs).
Proof.
  revert start. induction accs as [|acc accs IH]; intros start; simpl.
  - by rewrite Qcplus_0_r.
  - rewrite IH. unfold cards_total, accountsWithSignals. simpl.
    by rewrite Qcplus_assoc.
Qed.

(** X10: after a successful load the total balance is the sum of the
    balances on the cards shown, the account count is the number of those
    cards, and the cards are the overview's credit accounts in their
    order.  The load does not clear an error left by an earlier one. *)
Theorem loadData_totals_match_cards d s :
  let s' := loadData (Resolved d) s in
  totalBalance s' = cards_total (creditAccounts s')
  ∧ accountCount s' = length (creditAccounts s')
  ∧ ca_account_id <$> creditAccounts s' = account_id <$> credit d
  ∧ ca_balance <$> creditAccounts s' = balance <$> credit d
  ∧ loading s' = false
  ∧ error s' = error s.
Proof.
  simpl. split_and!; try done.
  - by rewrite (foldl_balance_sum (credit_utilization d)), Qcplus_0_l.
  - unfold accountsWithSignals. by rewrite length_fmap.
  - unfold accountsWithSignals. by rewrite <- list_fmap_compose.
  - unfold accountsWithSignals. by rewrite <- list_fmap_compose.
Qed.

Lemma abs_negative (a : Qc) : a < 0 → abs a = - a ∧ 0 < abs a.
Proof.
  intros Ha. unfold abs. rewrite decide_True by done. split; [done|].
  apply Qclt_minus_iff in Ha. by rewrite Qcplus_0_l in Ha.
Qed.

Lemma find_first_debit (before after : list Transaction) t :
  Forall (λ t', ¬ t_amount t' < 0) before →
  t_amount t < 0 →
  List.find (λ t, bool_decide (t_amount t < 0)
                  && bool_decide (0 < abs (t_amount t)))
            (before ++ t :: after)
  = Some t.
Proof.
  intros Hbefore Ht. induction Hbefore as [|t' before Ht' _ IH]; simpl.
  - destruct (abs_negative _ Ht) as [_ Hpos].
    by rewrite !bool_decide_eq_true_2.
  - by rewrite (bool_decide_eq_false_2 (t_amount t' < 0)).
Qed.

Lemma find_no_debit (txns : list Transaction) :
  Forall (λ t', ¬ t_amount t' < 0) txns →
  List.find (λ t, bool_decide (t_amount t < 0)
                  && bool_decide (0 < abs (t_amount t)))
            txns
  = None.
Proof.
  induction 1 as [|t' txns Ht' _ IH]; simpl; [done|].
  by rewrite (bool_decide_eq_false_2 (t_amount t' < 0)).
Qed.



(** X12: the utilization shown for a card is either computed from the
    card's own balance and limit, or it is the nonzero utilization of an
    entry of the signal that carries the card's account id; a figure of
    another account is never used. *)
Theorem withSignals_utilization_source sig acc :
  ca_utilization (withSignals sig acc)
  = balance acc / num_or (limit acc) (num_or (limit acc) 1)
  ∨ ∃ accounts entry,
      sig ≫= cs_accounts = Some accounts
      ∧ entry ∈ accounts
      ∧ sa_account_id entry = account_id acc
      ∧ sa_utilization entry = Some (ca_utilization (withSignals sig acc))
      ∧ ca_utilization (withSignals sig acc) ≠ 0.
Proof.
  unfold withSignals, signalAccountOf. simpl.
  destruct (sig ≫= cs_accounts) as [accounts|] eqn:Haccounts; simpl; [|by left].
  destruct (List.find _ accounts) as [entry|] eqn:Hfind; simpl; [|by left].
  apply find_some in Hfind as [Hin Hid].
  apply bool_decide_eq_true in Hid.
  destruct (sa_utilization entry) as [u|] eqn:Hu; [|by left].
  destruct (decide (u = 0)) as [->|Hz].
  - left. by rewrite (num_or_falsy (Some 0)) by by right.
  - right. exists accounts, entry. rewrite (num_or_truthy u) by done.
    split_and!; try done. by apply list_elem_of_In.
Qed.

End BalanceTransferFigures.

(** ** Compound interest and the high-yield comparison *)

Section CompoundInterest.
Import JS SavingsGoalModule SavingsGoalHYSA.

Implicit Types (principal deposit apr rate balance goal : Qc) (months : number)
  (n k : nat).

(** [int] is the embedding of the integers: it respects sums and order. *)
Lemma int_plus (a b : Z) : int (a + b) = int a + int b.
Proof.
  apply Qc_is_canon. unfold int, Qcplus. simpl.
  by rewrite !Qred_correct, inject_Z_plus.
Qed.

Lemma int_le (a b : Z) : (a ≤ b)%Z ↔ int a ≤ int b.
Proof.
  unfold int, Qcle. simpl. rewrite !Qred_correct. by rewrite Zle_Qle.
Qed.

Lemma int_S k : int (Z.of_nat (S k)) = int (Z.of_nat k) + 1.
Proof. by rewrite Nat2Z.inj_succ, <- Z.add_1_r, int_plus. Qed.

(** On numbers the function is the plain iteration of one month. *)
Lemma calculateWithCompoundInterest_Finite principal deposit apr months :
  calculateWithCompoundInterest (Finite principal) (Finite deposit)
    (Finite apr) months
  = Finite (Nat.iter (iterations months)
              (λ b, b * (1 + apr / int 12 / int 100) + deposit) principal).
Proof.
  unfold calculateWithCompoundInterest. simpl.
  induction (iterations months) as [|n IH]; [done|].
  simpl. by rewrite IH.
Qed.


Lemma iter_month_ge_linear rate deposit principal n :
  0 ≤ rate → 0 ≤ deposit → 0 ≤ principal →
  principal + int (Z.of_nat n) * deposit
  ≤ Nat.iter n (λ b, b * (1 + rate) + deposit) principal.
Proof.
  intros Hr Hd Hp. induction n as [|n IH].
  - simpl. change (int (Z.of_nat 0)) with (Q2Qc 0).
    rewrite Qcmult_0_l, Qcplus_0_r. apply Qcle_refl.
  - rewrite int_S. simpl.
    set (b := Nat.iter n (λ b, b * (1 + rate) + deposit) principal) in *.
    assert (Hb : 0 ≤ b).
    { eapply Qcle_trans; [|exact IH].
      rewrite <- (Qcplus_0_r 0).
      apply Qcplus_le_compat; [done|].
      rewrite <- (Qcmult_0_l deposit).
      apply Qcmult_le_compat_r; [|done].
      apply (proj1 (int_le 0 (Z.of_nat n))). lia. }
    assert (Hbr : 0 ≤ b * rate).
    { rewrite <- (Qcmult_0_l rate). by apply Qcmult_le_compat_r. }
    replace (principal + (int (Z.of_nat n) + 1) * deposit)
      with ((principal + int (Z.of_nat n) * deposit) + 0 + deposit) by ring.
    replace (b * (1 + rate) + deposit) with (b + b * rate + deposit) by ring.
    apply Qcplus_le_compat; [|apply Qcle_refl].
    by apply Qcplus_le_compat.
Qed.



End CompoundInterest.

Section HYSAComparisonFacts.
Import JS SavingsGoalModule SavingsGoalHYSA.

Variable parseFloat : string → number.

Implicit Types (s : State) (r : Rates) (c : HYSAComparison)
  (rate balance goal g : Qc) (fuel k : nat).

Lemma hysa_rate_nonneg : 0 ≤ HYSA_APY / int 12 / int 100.
Proof. by vm_compute. Qed.


End HYSAComparisonFacts.


(** ** Goals that do not parse *)

Section UnreadableGoal.
Import JS SavingsGoalModule.

Variable parseFloat : string → number.

Implicit Types (s : State) (w : Qc).

(** X18: a goal text that is not empty but does not read as a number
    (parseFloat gives NaN) is not rejected by the timeline calculation:
    with a positive weekly amount it is reported as achievable, with
    NaN months, NaN years and a NaN amount; with no weekly amount it is
    reported as not achievable, the amount needed again NaN. *)
Theorem calculateTimelineFromWeekly_unreadable_goal s w :
  goalAmount s ≠ "" →
  parseFloat (goalAmount s) = NaN →
  (0 < w →
   calculateTimelineFromWeekly parseFloat s w
   = {| months_needed := Some NaN; years_needed := Some NaN;
        amount_needed := NaN; is_achievable := true |})
  ∧ (w ≤ 0 →
     calculateTimelineFromWeekly parseFloat s w
     = {| months_needed := None; years_needed := None;
          amount_needed := NaN; is_achievable := false |}).
Proof.
  intros Hne Hnan. unfold calculateTimelineFromWeekly.
  rewrite decide_False, Hnan by done. cbn [geb number_map]. split.
  - intros Hw. by rewrite decide_False by by apply Qclt_not_le.
  - intros Hw. by rewrite decide_True.
Qed.

End UnreadableGoal.

(** The text "abc" under the digit reader. *)
Lemma calculateTimelineFromWeekly_unreadable_witness :
  let s := {| SavingsGoalModule.step := 2;
              SavingsGoalModule.currentSavings := JS.int 1000;
              SavingsGoalModule.goalAmount := "abc";
              SavingsGoalModule.weeklySavingsSlider := JS.int 100;
              SavingsGoalModule.calculation := None |} in
  SavingsGoalModule.is_achievable
    (SavingsGoalModule.calculateTimelineFromWeekly
       SavingsGoalModule.parseDigits s (JS.int 100)) = true
  ∧ SavingsGoalModule.months_needed
      (SavingsGoalModule.calculateTimelineFromWeekly
         SavingsGoalModule.parseDigits s (JS.int 100))
    = Some SavingsGoalModule.NaN.
Proof.
  intros s.
  destruct (calculateTimelineFromWeekly_unreadable_goal
              SavingsGoalModule.parseDigits s (JS.int 100)) as [H _];
    [done | reflexivity |].
  rewrite H by by vm_compute. by split.
Defined.

(** Four tiles, all selected, then a click on the third. *)
Lemma selectAll_witness :
  let tile := {| SubscriptionModule.merchant := "Netflix";
                 SubscriptionModule.amount := JS.dec 1599 100;
                 SubscriptionModule.monthly_equivalent := JS.dec 1599 100;
                 SubscriptionModule.frequency := "monthly" |} in
  let s := SubscriptionModule.setSubscriptions [tile; tile; tile; tile]
             SubscriptionModule.initial in
  SubscriptionSelection.isSelected 1
    (SubscriptionModule.toggleSubscription 2 (SubscriptionSelection.selectAll s))
  = true
  ∧ SubscriptionSelection.isSelected 2
      (SubscriptionModule.toggleSubscription 2 (SubscriptionSelection.selectAll s))
    = false.
Proof.
  intros tile s. split.
  - apply (selectAll_selects_every_tile s 1); simpl; lia.
  - reflexivity.
Defined.

(** ** Reloading the subscriptions *)

Section SubscriptionReload.
Import JS SubscriptionModule.

Implicit Types (signals : Signals) (s : State) (sig : SubscriptionSignal).

(** An array under [merchant_details], even an empty one, is what the
    module lists; [recurring_merchants] is then not looked at. *)
Lemma merchantData_prefers_details sig (details : list Merchant) :
  merchant_details sig = Some details → merchantData (Some sig) = details.
Proof. unfold merchantData. simpl. by intros ->. Qed.

(** X19: a load that finds no merchants to list (no subscriptions signal,
    no merchant arrays, or an empty [merchant_details] array, whatever
    [recurring_merchants] holds) changes nothing that is displayed: after
    an earlier load the tiles, the monthly and yearly totals and the
    selection stay those of the earlier load. *)
Theorem loadData_without_merchants_keeps_display signals signals' s :
  merchantData (subscriptions_signal signals') = [] →
  let s1 := loadData (Resolved signals) s in
  let s2 := loadData (Resolved signals') s1 in
  subscriptions s2 = subscriptions s1
  ∧ totalMonthly s2 = totalMonthly s1
  ∧ totalYearly s2 = totalYearly s1
  ∧ selectedIndices s2 = selectedIndices s1
  ∧ error s2 = error s1
  ∧ loading s2 = false.
Proof.
  intros Hempty s1 s2.
  assert (Hs2 : s2 = setLoading false (setLoading true s1)).
  { subst s2. generalize s1. intros t. unfold loadData.
    rewrite Hempty. cbn [length].
    by rewrite bool_decide_eq_false_2 by lia. }
  by rewrite Hs2.
Qed.

(** A first load with Netflix and a total of 15.99, then one whose
    signal has an empty [merchant_details] beside a Spotify entry. *)
Lemma loadData_without_merchants_witness :
  let netflix := {| m_merchant := Some "Netflix"; m_amount := Some (dec 1599 100);
                    m_monthly_equivalent := None; m_frequency := None |} in
  let spotify := {| m_merchant := Some "Spotify"; m_amount := Some (dec 999 100);
                    m_monthly_equivalent := None; m_frequency := None |} in
  let first := {| subscriptions_signal := Some
                    {| merchant_details := None;
                       recurring_merchants := Some [netflix];
                       monthly_recurring := Some (dec 1599 100) |} |} in
  let second := {| subscriptions_signal := Some
                     {| merchant_details := Some [];
                        recurring_merchants := Some [spotify];
                        monthly_recurring := Some (dec 999 100) |} |} in
  merchant <$> subscriptions
     (loadData (Resolved second) (loadData (Resolved first) initial))
  = ["Netflix"]
  ∧ totalMonthly (loadData (Resolved second) (loadData (Resolved first) initial))
    = totalMonthly (loadData (Resolved first) initial).
Proof.
  intros netflix spotify first second.
  destruct (loadData_without_merchants_keeps_display first second initial)
    as (Hsubs & Htotal & _); [reflexivity|].
  split; [by rewrite Hsubs | exact Htotal].
Defined.

End SubscriptionReload.

(** An error object with an empty message: the default module is shown,
    not the error view. *)
Lemma render_after_loadPersona_witness :
  PersonaModuleRouter.render
    (PersonaModuleRouter.loadPersona (JS.Rejected (JS.ErrorObject ""))
       PersonaModuleRouter.initial)
  = PersonaModuleRouter.ModuleView PersonaModuleRouter.SavingsGoalModule
  ∧ PersonaModuleRouter.render
      (PersonaModuleRouter.loadPersona (JS.Rejected JS.OtherValue)
         PersonaModuleRouter.initial)
    = PersonaModuleRouter.ErrorView "Failed to load persona"
        (PersonaModuleRouter.ErrorInfo "Unknown error").
Proof.
  split.
  - destruct (render_after_loadPersona (JS.Rejected (JS.ErrorObject ""))
                PersonaModuleRouter.initial) as [_ H].
    exact (H (JS.ErrorObject "") eq_refl).
  - reflexivity.
Defined.


(** ** The savings timeline in double precision *)

Section TimelineInDoubles.
Import Floats SavingsGoalDoubles.

Implicit Types (s : State) (g w x y : float).

Lemma compare_cont_swap (m1 m2 : positive) :
  PosDef.Pos.compare_cont Eq m2 m1
  = CompOpp (PosDef.Pos.compare_cont Eq m1 m2).
Proof. symmetry. apply (Pos.compare_cont_antisym m1 m2 Eq). Qed.

Lemma SFcompare_Lt_Gt (a b : spec_float) :
  SFcompare a b = Some Lt → SFcompare b a = Some Gt.
Proof.
  destruct a as [sa|sa| |sa ma ea], b as [sb|sb| |sb mb eb]; simpl;
    try done; try (by destruct sa); try (by destruct sb);
    try (by destruct sa, sb).
  rewrite (Z.compare_antisym ea eb), (compare_cont_swap ma mb).
  destruct sa, sb; try done;
    destruct (ea ?= eb)%Z; simpl; try done;
    destruct (PosDef.Pos.compare_cont Eq ma mb); simpl; done.
Qed.

(** On doubles, [x < y] excludes [y <= x] (and so [x >= y]). *)
Lemma ltb_not_leb x y : (x <? y)%float = true → (y <=? x)%float = false.
Proof.
  rewrite FloatAxioms.ltb_spec, FloatAxioms.leb_spec. unfold SFltb, SFleb.
  destruct (SFcompare (Prim2SF x) (Prim2SF y)) as [[]|] eqn:H; try done.
  intros _. by rewrite (SFcompare_Lt_Gt _ _ H).
Qed.

(** [ceil] on a few doubles: a fraction of one unit in the last place is
    enough to round up; whole numbers, infinities and NaN are fixed; a
    negative number above -1 gives -0. *)
Lemma ceil_examples :
  ceil 0x1.e000000000001p+3%float = 16%float
  ∧ ceil 15%float = 15%float
  ∧ ceil 0.5%float = 1%float
  ∧ ceil (-2.5)%float = (-2)%float
  ∧ Prim2SF (ceil (-0.5)%float) = S754_zero true
  ∧ ceil infinity = infinity
  ∧ ceil nan = nan.
Proof. split_and!; by vm_compute. Qed.

(** [weeksPerMonth] is 433 / 100 rounded to the nearest double. *)
Lemma weeksPerMonth_nearest : weeksPerMonth = (of_Z 433 / of_Z 100)%float.
Proof. by vm_compute. Qed.

(** The three outcomes for a goal that reads as a number, by the tests
    the code makes. *)
Lemma calculateTimelineFromWeekly_reached parseFloat s w :
  goalAmount s ≠ "" →
  (parseFloat (goalAmount s) <=? currentSavings s)%float = true →
  calculateTimelineFromWeekly parseFloat s w
  = {| months_needed := Some 0%float; years_needed := Some 0%float;
       amount_needed := 0%float; is_achievable := true |}.
Proof.
  intros Hne Hle. unfold calculateTimelineFromWeekly.
  by rewrite decide_False, Hle.
Qed.

Lemma calculateTimelineFromWeekly_no_savings parseFloat s w :
  goalAmount s ≠ "" →
  (parseFloat (goalAmount s) <=? currentSavings s)%float = false →
  (w <=? 0)%float = true →
  calculateTimelineFromWeekly parseFloat s w
  = {| months_needed := None; years_needed := None;
       amount_needed := (parseFloat (goalAmount s) - currentSavings s)%float;
       is_achievable := false |}.
Proof.
  intros Hne Hle Hw. unfold calculateTimelineFromWeekly.
  by rewrite decide_False, Hle, Hw.
Qed.

Lemma calculateTimelineFromWeekly_saving parseFloat s w :
  goalAmount s ≠ "" →
  (parseFloat (goalAmount s) <=? currentSavings s)%float = false →
  (w <=? 0)%float = false →
  calculateTimelineFromWeekly parseFloat s w
  = let needed := (parseFloat (goalAmount s) - currentSavings s)%float in
    let months := ceil (needed / (w * weeksPerMonth))%float in
    {| months_needed := Some months;
       years_needed := Some (months / 12)%float;
       amount_needed := needed;
       is_achievable := true |}.
Proof.
  intros Hne Hle Hw. unfold calculateTimelineFromWeekly.
  by rewrite decide_False, Hle, Hw.
Qed.




End TimelineInDoubles.
